(** * labview_automation: the wire client and the process lifecycle

    A shallow embedding of [labview_automation/client.py] (the TCP client of
    the LabVIEW listener) and of [labview_automation/labview.py] (the
    controller that starts, probes and kills a LabVIEW instance), with the
    properties of both stated and proved.

    Python values are an inductive type, exceptions are a sum type, the socket
    is explicit state (the segments still to arrive and the bytes sent), the
    host is a process table, and the clock is a sequence of readings. *)

From Stdlib Require Import ZArith List String Ascii Bool Lia Arith.
From Stdlib.Strings Require Import Byte.
From Stdlib Require DecimalString.
Import ListNotations.

#[local] Set Warnings "-register-all".

Local Open Scope string_scope.
Local Open Scope list_scope.
Local Open Scope Z_scope.

(** ** Python values *)

(** The values a BSON document carries in this protocol: [None], booleans,
    integers, (UTF-8) strings, lists and dicts.  A dict is kept as the list of
    its items, in insertion order. *)
Inductive value : Type :=
| VNone
| VBool (b : bool)
| VInt (z : Z)
| VStr (s : string)
| VList (l : list value)
| VDict (d : list (string * value)).

Definition dict : Type := list (string * value).
Definition bytes : Type := list byte.

(** Induction over values that reaches the members of lists and dicts. *)
Section ValueInd.
Variable P : value -> Prop.
Hypothesis HNone : P VNone.
Hypothesis HBool : forall b, P (VBool b).
Hypothesis HInt : forall z, P (VInt z).
Hypothesis HStr : forall s, P (VStr s).
Hypothesis HList : forall l, Forall P l -> P (VList l).
Hypothesis HDict : forall d, Forall (fun kv => P (snd kv)) d -> P (VDict d).

Fixpoint value_ind' (v : value) : P v :=
  match v with
  | VNone => HNone
  | VBool b => HBool b
  | VInt z => HInt z
  | VStr s => HStr s
  | VList l =>
      HList l ((fix go (l : list value) : Forall P l :=
                  match l with
                  | [] => Forall_nil _
                  | x :: r => Forall_cons x (value_ind' x) (go r)
                  end) l)
  | VDict d =>
      HDict d ((fix go (d : dict) : Forall (fun kv => P (snd kv)) d :=
                  match d with
                  | [] => Forall_nil _
                  | kv :: r => Forall_cons kv (value_ind' (snd kv)) (go r)
                  end) d)
  end.
End ValueInd.

(** [bool(v)]: Python's truth test, as [if return_dict[...]] applies it. *)
Definition truthy (v : value) : bool :=
  match v with
  | VNone => false
  | VBool b => b
  | VInt z => negb (z =? 0)
  | VStr s => negb (String.eqb s "")
  | VList l => match l with [] => false | _ => true end
  | VDict d => match d with [] => false | _ => true end
  end.

(** [key in d] and [d[key]]. *)
Fixpoint dict_get (key : string) (d : dict) : option value :=
  match d with
  | [] => None
  | (k, v) :: r => if String.eqb key k then Some v else dict_get key r
  end.

Definition dict_has (key : string) (d : dict) : bool :=
  match dict_get key d with Some _ => true | None => false end.

(** [d[key] = v]: replaces the value of an existing key in place, appends a
    new key. *)
Fixpoint dict_set (key : string) (v : value) (d : dict) : dict :=
  match d with
  | [] => [(key, v)]
  | (k, w) :: r =>
      if String.eqb key k then (k, v) :: r else (k, w) :: dict_set key v r
  end.

(** A Python dict holds each key once; [py_value] says so of every dict
    inside a value. *)
Fixpoint keys_unique (ks : list string) : bool :=
  match ks with
  | [] => true
  | k :: r => negb (existsb (String.eqb k) r) && keys_unique r
  end.

Fixpoint py_value (v : value) : bool :=
  match v with
  | VList l => forallb py_value l
  | VDict d =>
      keys_unique (map fst d) &&
      (fix go (d : dict) : bool :=
         match d with
         | [] => true
         | (_, w) :: r => py_value w && go r
         end) d
  | _ => true
  end.

Definition py_dict (d : dict) : bool := py_value (VDict d).

(** ** Exceptions *)

(** What the [bson] package raises. *)
Inductive bson_exn : Type :=
| InvalidBSON                                 (* bson.errors.InvalidBSON *)
| InvalidDocument                             (* bson.errors.InvalidDocument *)
| OverflowError
| PackError.                                  (* struct.error, inside bson *)

Inductive exn : Type :=
| RemoteError (code source message : value)   (* client.Error *)
| KeyError (key : string)
| IndexError
| StructError                                 (* struct.error *)
| BsonError (e : bson_exn)
| SocketError                                 (* socket.error *)
| OSError
| NotStartedError
| TimeoutError                                (* labview.TimeoutError *)
| TimeoutExpired.                             (* psutil.TimeoutExpired *)

Inductive result (E A : Type) : Type :=
| Ok (a : A)
| Raise (e : E).
Arguments Ok {E A} a.
Arguments Raise {E A} e.

Definition res (A : Type) : Type := result exn A.
Definition bson_res (A : Type) : Type := result bson_exn A.

Definition res_bind {E A B} (r : result E A) (k : A -> result E B)
    : result E B :=
  match r with
  | Ok a => k a
  | Raise e => Raise e
  end.

Declare Scope res_scope.
Delimit Scope res_scope with res.
Notation "'let?' x ':=' r 'in' k" :=
  (res_bind r (fun x => k))
    (at level 10, x pattern, r at level 100, k at level 200) : res_scope.

(** An exception of [bson], passing through the client. *)
Definition from_bson {A} (r : bson_res A) : res A :=
  match r with
  | Ok a => Ok a
  | Raise e => Raise (BsonError e)
  end.

(** [d[key]] as an expression: a missing key raises [KeyError]. *)
Definition subscript (d : dict) (key : string) : res value :=
  match dict_get key d with
  | Some v => Ok v
  | None => Raise (KeyError key)
  end.

(** ** Bytes and fixed-width integers *)

Definition byte_of_Z (z : Z) : byte :=
  match Byte.of_N (Z.to_N (z mod 256)) with
  | Some b => b
  | None => x00
  end.

Definition Z_of_byte (b : byte) : Z := Z.of_N (Byte.to_N b).

(** The [n] low bytes of [z], least significant first (two's complement for a
    negative [z]). *)
Fixpoint le_encode (n : nat) (z : Z) : bytes :=
  match n with
  | O => []
  | S m => byte_of_Z z :: le_encode m (z / 256)
  end.

(** The unsigned number a little-endian byte string spells. *)
Fixpoint le_decode (bs : bytes) : Z :=
  match bs with
  | [] => 0
  | b :: r => Z_of_byte b + 256 * le_decode r
  end.

(** Reading an unsigned [bits]-bit number as a signed one. *)
Definition to_signed (bits : Z) (u : Z) : Z :=
  if u <? 2 ^ (bits - 1) then u else u - 2 ^ bits.

Definition int32_min : Z := - 2 ^ 31.
Definition int32_max : Z := 2 ^ 31 - 1.
Definition int64_min : Z := - 2 ^ 63.
Definition int64_max : Z := 2 ^ 63 - 1.

Definition in_int32 (z : Z) : bool := (int32_min <=? z) && (z <=? int32_max).
Definition in_int64 (z : Z) : bool := (int64_min <=? z) && (z <=? int64_max).

(** [struct.unpack('l', b)[0]] on the platform the package runs on (Windows,
    where a native [long] is four bytes, little-endian): any other length
    raises [struct.error]. *)
Definition unpack_l (b : bytes) : res Z :=
  if Nat.eqb (List.length b) 4 then Ok (to_signed 32 (le_decode b))
  else Raise StructError.

(** ** The socket *)

(** A connected TCP socket, seen from the client: the segments the peer has
    still to deliver, in order, and everything the client has sent.  The peer
    closes the stream after the last segment. *)
Record socket : Type := mkSocket {
  inbox : list bytes;
  outbox : bytes
}.

(** What [recv(n)] takes from the incoming segments: at most [n] bytes, never
    across a segment boundary; nothing once the stream is closed.  An empty
    segment delivers nothing and is skipped. *)
Fixpoint take_segment (n : nat) (segs : list bytes) : bytes * list bytes :=
  match segs with
  | [] => ([], [])
  | [] :: rest => take_segment n rest
  | seg :: rest =>
      (firstn n seg,
       match skipn n seg with
       | [] => rest
       | more => more :: rest
       end)
  end.

(** [connection.recv(n)]. *)
Definition recv (n : nat) (s : socket) : bytes * socket :=
  let (got, segs) := take_segment n (inbox s) in
  (got, mkSocket segs (outbox s)).

(** [connection.send(b)]; the whole of [b] is taken to be sent. *)
Definition send (b : bytes) (s : socket) : socket :=
  mkSocket (inbox s) (outbox s ++ b).

(** ** Computations on a socket that may raise *)

Definition M (A : Type) : Type := socket -> res A * socket.

Definition ret {A} (a : A) : M A := fun s => (Ok a, s).
Definition raise {A} (e : exn) : M A := fun s => (Raise e, s).
Definition lift {A} (r : res A) : M A := fun s => (r, s).

Definition bind {A B} (m : M A) (k : A -> M B) : M B :=
  fun s =>
    match m s with
    | (Ok a, s') => k a s'
    | (Raise e, s') => (Raise e, s')
    end.

Declare Scope M_scope.
Delimit Scope M_scope with M.
Notation "x <- m ;; k" := (bind m (fun x => k))
  (at level 61, m at next level, right associativity) : M_scope.
Notation "m ;; k" := (bind m (fun _ => k))
  (at level 61, right associativity) : M_scope.

(** ** The bson package *)

(** [bson] is a third-party package; the client uses two of its functions,
    and the package is not part of this code.  One thing is assumed of it,
    the size check of the BSON format: a byte string shorter than the length
    its first four bytes declare is rejected with [InvalidBSON].  Nothing is
    assumed of what encoding and decoding return otherwise. *)
Class BsonLibrary : Type := {
  bson_encode : dict -> bson_res bytes;             (* bson.BSON.encode *)
  bson_decode_all : bytes -> bson_res (list dict);  (* bson.decode_all *)
  decode_all_short :
    forall b n, unpack_l (firstn 4 b) = Ok n ->
      Z.of_nat (List.length b) < n ->
      bson_decode_all b = Raise InvalidBSON
}.

(** ** client.py: LabVIEWClient *)

Section Client.
Context {bson : BsonLibrary}.
Local Open Scope M_scope.

(** [_send_dict].  The socket of an entered client is an object, which is
    true, so the [if self.connection] guard is taken. *)
Definition _send_dict (msg : dict) : M unit :=
  bson_msg <- lift (from_bson (bson_encode msg)) ;;
  fun s => (Ok tt, send bson_msg s).

(** The [while] loop of [_recv_dict]: it stops when the packet has reached
    the declared size, or ([break]) on an empty read.  Every other turn
    makes the packet longer, so [packet_size_int - len(packet)] turns are
    enough; [fuel] only makes the recursion structural. *)
Fixpoint recv_loop (fuel : nat) (packet_size_int : Z) (packet : bytes)
    (s : socket) : bytes * socket :=
  if Z.of_nat (List.length packet) <? packet_size_int then
    match fuel with
    | O => (packet, s)
    | S fuel' =>
        let (partial_packet, s') :=
          recv (Z.to_nat (packet_size_int - Z.of_nat (List.length packet))) s in
        match partial_packet with
        | [] => (packet, s')
        | _ => recv_loop fuel' packet_size_int (packet ++ partial_packet) s'
        end
    end
  else (packet, s).

(** [_recv_dict]; the [if self.connection] guard is taken here too. *)
Definition _recv_dict : M dict :=
  packet_size <- (fun s => let (b, s') := recv 4 s in (Ok b, s')) ;;
  packet_size_int <- lift (unpack_l packet_size) ;;
  packet <- (fun s =>
               let (p, s') :=
                 recv_loop (Z.to_nat packet_size_int) packet_size_int
                   packet_size s in
               (Ok p, s')) ;;
  docs <- lift (from_bson (bson_decode_all packet)) ;;
  match docs with
  | d :: _ => ret d
  | [] => raise IndexError
  end.

(** [describe_error]. *)
Definition describe_error (error : value) : M value :=
  let msg := [("command", VStr "describe_error"); ("error", error)] in
  _send_dict msg ;;
  return_vals <- _recv_dict ;;
  lift (subscript return_vals "msg").

(** [_check_for_error].  The three lookups that build [error] come first, in
    the order of the dict display; the arguments of [Error(...)] are then
    evaluated left to right, the call of [describe_error] last. *)
Definition _check_for_error (return_dict : dict) : M unit :=
  if negb (dict_has "RunVIState_Status" return_dict) then ret tt
  else
    flag <- lift (subscript return_dict "RunVIState_Status") ;;
    if truthy flag then
      code <- lift (subscript return_dict "RunVIState_Code") ;;
      status <- lift (subscript return_dict "RunVIState_Status") ;;
      source <- lift (subscript return_dict "RunVIState_Source") ;;
      let error :=
        VDict [("code", code); ("status", status); ("source", source)] in
      code' <- lift (subscript return_dict "RunVIState_Code") ;;
      source' <- lift (subscript return_dict "RunVIState_Source") ;;
      message <- describe_error error ;;
      raise (RemoteError code' source' message)
    else ret tt.

Definition run_vi_synchronous (vi_path control_values run_options
    open_frontpanel indicator_names : value) : M dict :=
  let msg := [("command", VStr "run_vi");
              ("vi_path", vi_path);
              ("run_options", run_options);
              ("open_frontpanel", open_frontpanel);
              ("control_values", control_values);
              ("indicator_names", indicator_names)] in
  _send_dict msg ;;
  return_vals <- _recv_dict ;;
  _check_for_error return_vals ;;
  ret return_vals.

Definition set_controls (project_path target_name vi_path control_values
    ignore_nonexistent_controls : value) : M dict :=
  let msg := [("command", VStr "set_controls");
              ("project_path", project_path);
              ("target_name", target_name);
              ("vi_path", vi_path);
              ("control_values", control_values);
              ("ignore_nonexistent_controls", ignore_nonexistent_controls)] in
  _send_dict msg ;;
  return_vals <- _recv_dict ;;
  _check_for_error return_vals ;;
  ret return_vals.

Definition get_indicators (project_path target_name vi_path
    indicator_names : value) : M dict :=
  let msg := [("command", VStr "get_indicators");
              ("project_path", project_path);
              ("target_name", target_name);
              ("vi_path", vi_path);
              ("indicator_names", indicator_names)] in
  _send_dict msg ;;
  return_vals <- _recv_dict ;;
  _check_for_error return_vals ;;
  ret return_vals.

(** The three calls as data, for statements about all of them. *)
Inductive call : Type :=
| RunVI (vi_path control_values run_options open_frontpanel
         indicator_names : value)
| SetControls (project_path target_name vi_path control_values
               ignore_nonexistent_controls : value)
| GetIndicators (project_path target_name vi_path indicator_names : value).

Definition perform (c : call) : M dict :=
  match c with
  | RunVI p cv ro fp names => run_vi_synchronous p cv ro fp names
  | SetControls pp tn p cv ign => set_controls pp tn p cv ign
  | GetIndicators pp tn p names => get_indicators pp tn p names
  end.

Definition message_of (c : call) : dict :=
  match c with
  | RunVI p cv ro fp names =>
      [("command", VStr "run_vi"); ("vi_path", p); ("run_options", ro);
       ("open_frontpanel", fp); ("control_values", cv);
       ("indicator_names", names)]
  | SetControls pp tn p cv ign =>
      [("command", VStr "set_controls"); ("project_path", pp);
       ("target_name", tn); ("vi_path", p); ("control_values", cv);
       ("ignore_nonexistent_controls", ign)]
  | GetIndicators pp tn p names =>
      [("command", VStr "get_indicators"); ("project_path", pp);
       ("target_name", tn); ("vi_path", p); ("indicator_names", names)]
  end.
End Client.

(** Whether a response carries a status that tests true. *)
Definition status_flag (return_dict : dict) : bool :=
  match dict_get "RunVIState_Status" return_dict with
  | Some flag => truthy flag
  | None => false
  end.

Definition is_remote_error (e : exn) : bool :=
  match e with
  | RemoteError _ _ _ => true
  | _ => false
  end.

(** ** labview.py: the machines and their processes *)

(** A process as [psutil] shows it.  [exit_delay] is how long the process
    takes to exit once it has been killed, in the unit of the timeouts. *)
Record process : Type := mkProcess {
  pid : Z;
  name : string;
  exe : string;
  alive : bool;          (* what [is_running()] answers *)
  exit_delay : Z
}.

(** One machine: its process table in the order [psutil.process_iter] yields
    it, the processes the next [Popen] calls will create, and the argument
    lists [Popen] was called with. *)
Record host : Type := mkHost {
  procs : list process;
  pending : list process;
  launched : list (list string)
}.

(** The machine the controller runs on and the machine LabVIEW is driven on.
    A controller built for ["localhost"] uses [LabVIEWHelpers] and works on
    the first; any other host name selects [RemoteLabVIEWHelpers] and its
    helpers work on the second. *)
Record world : Type := mkWorld {
  here : host;
  there : host
}.

Definition lower_ascii (c : ascii) : ascii :=
  let n := nat_of_ascii c in
  if (Nat.leb 65 n && Nat.leb n 90)%bool then ascii_of_nat (n + 32) else c.

(** [str.lower()]. *)
Fixpoint lower (s : string) : string :=
  match s with
  | EmptyString => EmptyString
  | String c r => String (lower_ascii c) (lower r)
  end.

(** [psutil.Process(pid)]: [None] stands for [NoSuchProcess]. *)
Definition Process (n : Z) (h : host) : option process :=
  find (fun p => pid p =? n) (procs h).

Module LabVIEWHelpers.

(** [start_process]: [subprocess.Popen(args)] and the pid of the child. *)
Definition start_process (args : list string) (h : host) : res Z * host :=
  match pending h with
  | p :: rest =>
      (Ok (pid p), mkHost (procs h ++ [p]) rest (launched h ++ [args]))
  | [] => (Raise OSError, mkHost (procs h) [] (launched h ++ [args]))
  end.

(** [_get_process]. *)
Definition _get_process (pid : option Z) (executable : string) (h : host)
    : option process :=
  match pid with
  | None => None
  | Some n =>
      match Process n h with
      | Some proc =>
          if String.eqb (lower (exe proc)) (lower executable) then Some proc
          else None
      | None => None
      end
  end.

(** [process_is_running]. *)
Definition process_is_running (pid : option Z) (executable : string)
    (h : host) : bool :=
  match _get_process pid executable h with
  | None => false
  | Some proc => alive proc
  end.

(** [proc.kill(); proc.wait(timeout)]: the process leaves the table when it
    exits within the timeout ([None] waits for as long as it takes);
    otherwise [wait] raises [TimeoutExpired] and the process is still
    there. *)
Definition kill_and_wait (proc : process) (timeout : option Z) (h : host)
    : res unit * host :=
  let gone :=
    mkHost (filter (fun q => negb (pid q =? pid proc)) (procs h))
           (pending h) (launched h) in
  match timeout with
  | None => (Ok tt, gone)
  | Some t =>
      if exit_delay proc <=? t then (Ok tt, gone)
      else (Raise TimeoutExpired, h)
  end.

(** [kill_process]. *)
Definition kill_process (pid : option Z) (executable : string)
    (timeout : option Z) (h : host) : res unit * host :=
  match _get_process pid executable h with
  | None => (Ok tt, h)
  | Some proc => kill_and_wait proc timeout h
  end.

End LabVIEWHelpers.

(** ** labview.py: LabVIEW *)

Record ServerConfiguration : Type := mkServerConfiguration {
  start : bool;
  port : Z;
  log_path : option string;
  error_log_path : option string;
  tcp_timeout_s : Z
}.

(** The fields of a [LabVIEW] object the lifecycle uses.  [executable] is the
    value of the property of that name (the installation directory joined
    with ["LabVIEW.exe"]). *)
Record LabVIEW : Type := mkLabVIEW {
  _host : string;
  executable : string;
  _pid : option Z;
  server_cfg : ServerConfiguration
}.

Definition set_pid (self : LabVIEW) (p : option Z) : LabVIEW :=
  mkLabVIEW (_host self) (executable self) p (server_cfg self).

(** The object [client()] returns. *)
Record LabVIEWClient : Type := mkLabVIEWClient {
  address : string;
  client_port : Z
}.

Definition is_local (self : LabVIEW) : bool :=
  String.eqb (_host self) "localhost".

(** The machine [self._helpers] works on, and putting it back. *)
Definition helpers_host (self : LabVIEW) (w : world) : host :=
  if is_local self then here w else there w.

Definition with_helpers_host (self : LabVIEW) (w : world) (h : host) : world :=
  if is_local self then mkWorld h (there w) else mkWorld (here w) h.

(** [is_running]. *)
Definition is_running (self : LabVIEW) (w : world) : bool :=
  LabVIEWHelpers.process_is_running (_pid self) (executable self)
    (helpers_host self w).

(** [client]. *)
Definition client (self : LabVIEW) (w : world) : res LabVIEWClient :=
  if negb (is_running self w) then Raise NotStartedError
  else if negb (start (server_cfg self)) then Raise NotStartedError
  else Ok (mkLabVIEWClient (_host self) (port (server_cfg self))).

(** The [for] loop of [start_with_args]: every process of this machine named
    ["LabVIEW.exe"] overwrites the tracked pid. *)
Definition adopt_running (tracked : option Z) (table : list process)
    : option Z :=
  fold_left
    (fun acc proc =>
       if String.eqb (name proc) "LabVIEW.exe" then Some (pid proc) else acc)
    table tracked.

(** [start_with_args]. *)
Definition start_with_args (args : list string) (self : LabVIEW) (w : world)
    : res unit * LabVIEW * world :=
  let run_args := executable self :: args in
  let self1 := set_pid self (adopt_running (_pid self) (procs (here w))) in
  let (r, h) := LabVIEWHelpers.start_process run_args (helpers_host self1 w) in
  let w' := with_helpers_host self1 w h in
  match _pid self1 with
  | None =>
      match r with
      | Ok child => (Ok tt, set_pid self1 (Some child), w')
      | Raise e => (Raise e, self1, w')
      end
  | Some _ =>
      match r with
      | Ok _ => (Ok tt, self1, w')
      | Raise e => (Raise e, self1, w')
      end
  end.

(** [kill_process] as [self._helpers] provides it: [RemoteLabVIEWHelpers]
    forwards the pid and the executable but not the timeout. *)
Definition helpers_kill_process (self : LabVIEW) (timeout : option Z)
    (w : world) : res unit * world :=
  let timeout' := if is_local self then timeout else None in
  let (r, h) :=
    LabVIEWHelpers.kill_process (_pid self) (executable self) timeout'
      (helpers_host self w) in
  (r, with_helpers_host self w h).

(** [kill]. *)
Definition kill (timeout_s : option Z) (self : LabVIEW) (w : world)
    : res unit * LabVIEW * world :=
  match helpers_kill_process self timeout_s w with
  | (Ok _, w') => (Ok tt, set_pid self None, w')
  | (Raise e, w') => (Raise e, self, w')
  end.

(** What one turn of the readiness loop meets: the machines as they are then,
    whether the listener accepts a connection, and what [time.time()] reads
    when the probe of that turn is over (the loop reads it only after a probe
    that failed). *)
Record observation : Type := mkObservation {
  seen : world;
  accepts : bool;
  clock : Z
}.

(** [with self.client(): pass]: [client()], then [__enter__] connects and
    [__exit__] closes. *)
Definition probe (self : LabVIEW) (o : observation) : res unit :=
  match client self (seen o) with
  | Raise e => Raise e
  | Ok _ => if accepts o then Ok tt else Raise SocketError
  end.

(** [wait_until_server_loaded], from the reading [start_time] on, through the
    turns [script] describes.  [None]: the loop is still waiting when the
    script ends. *)
Fixpoint wait_loop (self : LabVIEW) (timeout_s start_time : Z)
    (script : list observation) : option (res unit) :=
  match script with
  | [] => None
  | o :: later =>
      match probe self o with
      | Ok _ => Some (Ok tt)
      | Raise _ =>
          if clock o - start_time >? timeout_s then Some (Raise TimeoutError)
          else wait_loop self timeout_s start_time later
      end
  end.

Definition wait_until_server_loaded (self : LabVIEW) (timeout_s : Z)
    (start_time : Z) (script : list observation) : option (res unit) :=
  wait_loop self timeout_s start_time script.

(** ** A BSON codec for these values *)

(** The BSON encoding of the values above, as the [bson] package writes and
    reads it: a document is its length (four bytes, little-endian, the length
    field and the final NUL included), its elements and a NUL; an element is
    a type byte, the key as a C string and the payload.  It instantiates
    [BsonLibrary] below, and serves to run the client on concrete frames.

    It covers the element types of the six kinds of value above and no
    other.  The package knows more (doubles, dates, binary data and so on),
    which the values here cannot hold: where the package would return such a
    value, this codec raises [InvalidBSON].  Nothing is stated of the package
    through this codec. *)
Module Bson.

Definition has_nul (s : string) : bool :=
  existsb (fun c => Byte.eqb c x00) (list_byte_of_string s).

Definition cstring (s : string) : bytes := list_byte_of_string s ++ [x00].

(** [struct.pack("<i", z)]. *)
Definition pack_int (z : Z) : bson_res bytes :=
  if in_int32 z then Ok (le_encode 4 z) else Raise PackError.

(** [str(i)], the key of the [i]-th member of an array. *)
Definition index_key (i : nat) : string :=
  DecimalString.NilEmpty.string_of_uint (Nat.to_uint i).

Definition frame (elements : bytes) : bson_res bytes :=
  (let? size := pack_int (Z.of_nat (List.length elements) + 5) in
   Ok (size ++ elements ++ [x00]))%res.

Definition element (tag : byte) (key : string) (payload : bytes)
    : bson_res bytes :=
  if has_nul key then Raise InvalidDocument
  else Ok (tag :: cstring key ++ payload).

(** The type byte and the payload of a value. *)
Fixpoint value_to_bson (v : value) : bson_res (byte * bytes) :=
  (match v with
   | VNone => Ok (x0a, [])
   | VBool b => Ok (x08, [if b then x01 else x00])
   | VInt z =>
       if in_int32 z then Ok (x10, le_encode 4 z)
       else if in_int64 z then Ok (x12, le_encode 8 z)
       else Raise OverflowError
   | VStr s =>
       let data := list_byte_of_string s in
       let? size := pack_int (Z.of_nat (List.length data) + 1) in
       Ok (x02, size ++ data ++ [x00])
   | VList l =>
       let? elements :=
         (fix go (i : nat) (l : list value) : bson_res bytes :=
            match l with
            | [] => Ok []
            | w :: r =>
                let? tp := value_to_bson w in
                let? e := element (fst tp) (index_key i) (snd tp) in
                let? es := go (S i) r in
                Ok (e ++ es)
            end) 0%nat l in
       let? doc := frame elements in
       Ok (x04, doc)
   | VDict d =>
       let? elements :=
         (fix go (d : dict) : bson_res bytes :=
            match d with
            | [] => Ok []
            | (k, w) :: r =>
                let? tp := value_to_bson w in
                let? e := element (fst tp) k (snd tp) in
                let? es := go r in
                Ok (e ++ es)
            end) d in
       let? doc := frame elements in
       Ok (x03, doc)
   end)%res.

(** The elements of a dict, one after the other. *)
Fixpoint elements_of_dict (d : dict) : bson_res bytes :=
  (match d with
   | [] => Ok []
   | (k, w) :: r =>
       let? tp := value_to_bson w in
       let? e := element (fst tp) k (snd tp) in
       let? es := elements_of_dict r in
       Ok (e ++ es)
   end)%res.

Fixpoint elements_of_list (i : nat) (l : list value) : bson_res bytes :=
  (match l with
   | [] => Ok []
   | w :: r =>
       let? tp := value_to_bson w in
       let? e := element (fst tp) (index_key i) (snd tp) in
       let? es := elements_of_list (S i) r in
       Ok (e ++ es)
   end)%res.

(** [bson.BSON.encode]. *)
Definition encode (d : dict) : bson_res bytes :=
  (let? elements := elements_of_dict d in frame elements)%res.

(** Decoding.  Whatever goes wrong is reported as [InvalidBSON]. *)

Fixpoint get_c_string (b : bytes) : bson_res (bytes * bytes) :=
  match b with
  | [] => Raise InvalidBSON
  | c :: r =>
      if Byte.eqb c x00 then Ok ([], r)
      else (let? kr := get_c_string r in Ok (c :: fst kr, snd kr))%res
  end.

(** A signed little-endian integer of [n] bytes, and what follows it. *)
Definition get_int (n : nat) (b : bytes) : bson_res (Z * bytes) :=
  if Nat.ltb (List.length b) n then Raise InvalidBSON
  else Ok (to_signed (8 * Z.of_nat n) (le_decode (firstn n b)), skipn n b).

(** A framed document: its elements (the bytes between the length field and
    the final NUL) and what follows it. *)
Definition get_frame (b : bytes) : bson_res (bytes * bytes) :=
  (let? sr := get_int 4 b in
   let size := fst sr in
   if size <? 5 then Raise InvalidBSON
   else if Z.of_nat (List.length b) <? size then Raise InvalidBSON
   else
     let n := Z.to_nat size in
     match nth_error b (n - 1) with
     | Some x00 => Ok (firstn (n - 5) (skipn 4 b), skipn n b)
     | _ => Raise InvalidBSON
     end)%res.

Definition get_string (b : bytes) : bson_res (value * bytes) :=
  (let? sr := get_int 4 b in
   let size := fst sr in
   let r := snd sr in
   if size <? 1 then Raise InvalidBSON
   else if Z.of_nat (List.length r) <? size then Raise InvalidBSON
   else
     let n := Z.to_nat size in
     match nth_error r (n - 1) with
     | Some x00 => Ok (VStr (string_of_list_byte (firstn (n - 1) r)), skipn n r)
     | _ => Raise InvalidBSON
     end)%res.

(** [get_value] reads the payload of an element of type [tag];
    [get_elements] reads elements to the end of its input.  Each call uses
    up one unit of [fuel], and a byte string never needs more than its
    length. *)
Fixpoint get_value (fuel : nat) (tag : byte) (b : bytes)
    : bson_res (value * bytes) :=
  match fuel with
  | O => Raise InvalidBSON
  | S fuel' =>
      (match tag with
       | x0a => Ok (VNone, b)
       | x08 =>
           match b with
           | x00 :: r => Ok (VBool false, r)
           | x01 :: r => Ok (VBool true, r)
           | _ => Raise InvalidBSON
           end
       | x10 => let? zr := get_int 4 b in Ok (VInt (fst zr), snd zr)
       | x12 => let? zr := get_int 8 b in Ok (VInt (fst zr), snd zr)
       | x02 => get_string b
       | x03 =>
           let? er := get_frame b in
           let? items := get_elements fuel' (fst er) in
           Ok (VDict (fold_left (fun acc kv => dict_set (fst kv) (snd kv) acc)
                        items []),
               snd er)
       | x04 =>
           let? er := get_frame b in
           let? items := get_elements fuel' (fst er) in
           Ok (VList (map snd items), snd er)
       | _ => Raise InvalidBSON
       end)%res
  end
with get_elements (fuel : nat) (b : bytes) : bson_res (list (string * value)) :=
  match b with
  | [] => Ok []
  | tag :: b1 =>
      match fuel with
      | O => Raise InvalidBSON
      | S fuel' =>
          (let? kr := get_c_string b1 in
           let? vr := get_value fuel' tag (snd kr) in
           let? items := get_elements fuel' (snd vr) in
           Ok ((string_of_list_byte (fst kr), fst vr) :: items))%res
      end
  end.

(** One top-level document and what follows it. *)
Definition get_document (b : bytes) : bson_res (dict * bytes) :=
  (let? er := get_frame b in
   let? items := get_elements (List.length (fst er)) (fst er) in
   Ok (fold_left (fun acc kv => dict_set (fst kv) (snd kv) acc) items [],
       snd er))%res.

(** [bson.decode_all]: the documents of [data], one after the other, while
    more than one byte is left. *)
Fixpoint decode_all_from (fuel : nat) (data : bytes) : bson_res (list dict) :=
  if Nat.leb (List.length data) 1 then Ok []
  else
    match fuel with
    | O => Raise InvalidBSON
    | S fuel' =>
        (let? dr := get_document data in
         let? ds := decode_all_from fuel' (snd dr) in
         Ok (fst dr :: ds))%res
    end.

Definition decode_all (data : bytes) : bson_res (list dict) :=
  decode_all_from (List.length data) data.

(** The fuel decoding a value takes: one unit for each value and each
    element inside it. *)
Fixpoint need (v : value) : nat :=
  match v with
  | VList l =>
      S ((fix go (l : list value) : nat :=
            match l with
            | [] => O
            | w :: r => S (need w + go r)
            end) l)
  | VDict d =>
      S ((fix go (d : dict) : nat :=
            match d with
            | [] => O
            | (_, w) :: r => S (need w + go r)
            end) d)
  | _ => 1%nat
  end.

Fixpoint need_list (l : list value) : nat :=
  match l with
  | [] => O
  | w :: r => S (need w + need_list r)
  end.

Fixpoint need_dict (d : dict) : nat :=
  match d with
  | [] => O
  | (_, w) :: r => S (need w + need_dict r)
  end.

(** What encoding then decoding one value gives. *)
Definition value_roundtrip (v : value) : Prop :=
  py_value v = true ->
  forall tag payload,
    value_to_bson v = Ok (tag, payload) ->
    (need v <= S (List.length payload))%nat /\
    forall fuel rest,
      (need v <= fuel)%nat ->
      get_value fuel tag (payload ++ rest) = Ok (v, rest).

End Bson.

(** ** Cases to run the definitions on *)

Module Examples.

(** A controller on this machine that tracks pid 4242. *)
Definition cfg : ServerConfiguration :=
  mkServerConfiguration true 2552 None None 60.

Definition lv_exe : string := "C:\Program Files\NI\LabVIEW 2015\LabVIEW.exe".

Definition tracking : LabVIEW := mkLabVIEW "localhost" lv_exe (Some 4242) cfg.
Definition fresh : LabVIEW := mkLabVIEW "localhost" lv_exe None cfg.

(** LabVIEW running as pid 4242, slow to exit (ten ticks) once killed. *)
Definition labview_proc : process :=
  mkProcess 4242 "LabVIEW.exe"
    "c:\program files\ni\labview 2015\labview.exe" true 10.

(** Another program that got pid 4242. *)
Definition notepad_proc : process :=
  mkProcess 4242 "notepad.exe" "C:\Windows\notepad.exe" true 0.

Definition child_proc : process :=
  mkProcess 5001 "LabVIEW.exe" lv_exe true 10.

Definition idle : host := mkHost [] [child_proc] [].
Definition with_labview : host := mkHost [labview_proc] [child_proc] [].
Definition with_notepad : host := mkHost [notepad_proc] [child_proc] [].

Definition world_of (h : host) : world := mkWorld h (mkHost [] [] []).

(** The bytes of a dict, for the peer to send. *)
Definition wire (d : dict) : bytes :=
  match Bson.encode d with
  | Ok b => b
  | Raise _ => []
  end.

Definition get_call : call :=
  GetIndicators (VStr "C:\p.lvproj") (VStr "My Computer") (VStr "C:\a.vi")
    (VList [VStr "out"]).

Definition failed_reply : dict :=
  [("RunVIState_Status", VBool true);
   ("RunVIState_Code", VInt 42);
   ("RunVIState_Source", VStr "X")].

Definition description : dict := [("msg", VStr "Error 42 occurred at X")].

(** A reply whose status is set but which names no code. *)
Definition bare_status : dict := [("RunVIState_Status", VBool true)].

(** A reply whose status is the integer 1. *)
Definition numeric_status : dict :=
  [("RunVIState_Status", VInt 1);
   ("RunVIState_Code", VInt 42);
   ("RunVIState_Source", VStr "X")].

Definition peer (replies : list dict) : socket :=
  mkSocket (map wire replies) [].

(** A stream that declares sixteen bytes and closes after seven. *)
Definition cut_short : socket :=
  mkSocket [[x10; x00; x00; x00]; [x10; x61; x00]] [].


(** Two turns of the readiness loop, started at clock 0: the listener is
    not up at clock 4 and is up at clock 6. *)
Definition not_yet : observation :=
  mkObservation (world_of with_labview) false 4.
Definition up_late : observation :=
  mkObservation (world_of with_labview) true 6.
Definition still_down : observation :=
  mkObservation (world_of with_labview) false 6.

End Examples.

(** ** More of the client *)

(** The message [describe_error] sends. *)
Definition describe_error_message (error : value) : dict :=
  [("command", VStr "describe_error"); ("error", error)].

(** ** More cases to run the definitions on *)

Module MoreExamples.
Import Examples.

(** A LabVIEW of another version, running as pid 777. *)
Definition other_labview : process :=
  mkProcess 777 "LabVIEW.exe" "C:\Program Files\NI\LabVIEW 2013\LabVIEW.exe"
    true 0.

Definition with_other_labview : host := mkHost [other_labview] [child_proc] [].

End MoreExamples.

(** ** labview.py: starting and restarting *)

(** [str(n)] for an integer. *)
Definition str (n : Z) : string :=
  DecimalString.NilZero.string_of_int (Z.to_int n).

(** [with self.client(): pass], when the machines are [w] and the listener
    accepts a connection or not: [client()], then [__enter__] connects and
    [__exit__] closes. *)
Definition open_and_close (self : LabVIEW) (w : world) (listening : bool)
    : res unit :=
  match client self w with
  | Raise e => Raise e
  | Ok _ => if listening then Ok tt else Raise SocketError
  end.

(** What a call of [start] meets besides the machines: the path of the
    preferences file [create_temp_ini] writes, the path
    [get_listener_vi_path] returns, whether the listener accepts a connection
    at the time of the call, and, for the wait, the first clock reading and
    the turns of the loop. *)
Record start_env : Type := mkStartEnv {
  ini_file : string;
  server_vi_path : string;
  listening_now : bool;
  wait_start_time : Z;
  wait_script : list observation
}.

Module Lifecycle.

(** The [args] list [start] builds for the listener. *)
Definition listener_args (cfg : ServerConfiguration)
    (server_vi_path ini_file : string) : list string :=
  [server_vi_path; "-pref"; ini_file; "--";
   "--port"; str (port cfg);
   "--timeout"; str (tcp_timeout_s cfg * 1000)]
  ++ match log_path cfg with
     | Some p => ["--reportfile"; p]
     | None => []
     end
  ++ match error_log_path cfg with
     | Some p => ["--errorfile"; p]
     | None => []
     end.

(** [start], from the point where its preliminaries have returned:
    [create_temp_ini] has written the preferences file [ini_file env], and
    the [executable] property has its value, the field of the controller.
    Both can raise before anything below happens (the file cannot be
    written; no installation is found for the version and [path] raises
    [ValueError]); such a call is outside this definition.  For a running
    instance, the test of [is_running] in [start] and the one [client()]
    makes next are taken to see the same processes.
    [None]: the readiness wait is still going on when the script of the
    environment ends. *)
Definition start (wait_until_open : bool) (timeout_s : Z) (env : start_env)
    (self : LabVIEW) (w : world) : option (res unit) * LabVIEW * world :=
  if start (server_cfg self) then
    if is_running self w then
      (Some (open_and_close self w (listening_now env)), self, w)
    else
      let args :=
        listener_args (server_cfg self) (server_vi_path env) (ini_file env) in
      match start_with_args args self w with
      | (Raise e, self', w') => (Some (Raise e), self', w')
      | (Ok _, self', w') =>
          if wait_until_open then
            (wait_until_server_loaded self' timeout_s (wait_start_time env)
               (wait_script env), self', w')
          else (Some (Ok tt), self', w')
      end
  else
    if is_running self w then (Some (Ok tt), self, w)
    else
      let (r, h) :=
        LabVIEWHelpers.start_process
          [executable self; "-pref"; ini_file env] (helpers_host self w) in
      let w' := with_helpers_host self w h in
      match r with
      | Ok child => (Some (Ok tt), set_pid self (Some child), w')
      | Raise e => (Some (Raise e), self, w')
      end.

(** [restart]. *)
Definition restart (wait_until_open : bool) (timeout_s : Z) (env : start_env)
    (self : LabVIEW) (w : world) : option (res unit) * LabVIEW * world :=
  if is_running self w then
    match kill (Some timeout_s) self w with
    | (Ok _, self1, w1) => start wait_until_open timeout_s env self1 w1
    | (Raise e, self1, w1) => (Some (Raise e), self1, w1)
    end
  else start wait_until_open timeout_s env self w.

End Lifecycle.

(** ** Cases for starting and restarting *)

Module StartExamples.
Import Examples.

(** The machine once the child of [idle] is running. *)
Definition child_running : host := mkHost [child_proc] [] [].

(** Two turns of the wait after a launch at clock 0: the listener is not up
    at clock 2 and is up at clock 3. *)
Definition booting : observation :=
  mkObservation (world_of child_running) false 2.
Definition ready : observation :=
  mkObservation (world_of child_running) true 3.

Definition env_ready : start_env :=
  mkStartEnv "C:\Temp\tmp1.ini" "C:\lv_listener\Splash Screen.vi" true 0
    [booting; ready].

(** The listener never comes up. *)
Definition env_down : start_env :=
  mkStartEnv "C:\Temp\tmp1.ini" "C:\lv_listener\Splash Screen.vi" false 0
    [booting; mkObservation (world_of child_running) false 7].

Definition cfg_off : ServerConfiguration :=
  mkServerConfiguration false 2552 None None 60.

Definition cfg_logged : ServerConfiguration :=
  mkServerConfiguration true 2552 (Some "C:\Temp\report.log") None 60.

Definition plain : LabVIEW := mkLabVIEW "localhost" lv_exe None cfg_off.
Definition logged : LabVIEW := mkLabVIEW "localhost" lv_exe None cfg_logged.

End StartExamples.

(** ** labview.py: the options of the preferences file *)

(** What the configuration part of the controller raises. *)
Inductive config_exn : Type :=
| ValueError
| AttributeError
| WindowsError.

Definition dquote : ascii := ascii_of_nat 34.
Definition squote : ascii := ascii_of_nat 39.

(** A string literal written between double quotes, quotes included. *)
Definition quoted (s : string) : string :=
  String dquote (s ++ String dquote EmptyString).

(** An [_LVOptions] object is the dict of its attributes; setting an
    attribute is [dict_set]. *)
Definition set_all (settings : list (string * value)) (ini : dict) : dict :=
  fold_left (fun d kv => dict_set (fst kv) (snd kv) d) settings ini.

Module _LVOptions.

(** [__init__]. *)
Definition defaults : list (string * value) :=
  [("IsFirstLaunch", VBool false);
   ("ShowWelcomeOnLaunch", VBool false);
   ("prefDlgTestData", VInt 1234);
   ("defaultErrorHandlingForNewVIs", VBool false);
   ("playAnimatedImages", VBool false);
   ("SnapGridDrawAsLines", VInt 1);
   ("paletteAsyncLoad", VBool false);
   ("paletteLazyLoad", VBool true);
   ("autoerr", VInt 3);
   ("postScriptLevel2", VBool false);
   ("saveFloaterLocations", VBool true);
   ("menuSetup", VStr (quoted "default"));
   ("simpleDiagramHelp", VBool false);
   ("GSW_RSSCheckEnabled", VBool false);
   ("AutoSaveEnabled", VBool false);
   ("nirviShowCompileWarning", VBool false);
   ("FPGADialogControl",
    VStr (quoted "compileSummary;compileWarning;useOldBitfile"));
   ("showDetailsInLoadingDialog", VBool true)].

Definition __init__ : dict := set_all defaults [].

(** [get_dict]. *)
Definition get_dict (self : dict) : dict := [("LabVIEW", VDict self)].

End _LVOptions.

(** [disable_dialogs]: the attributes it sets, in its order. *)
Definition dialog_settings : list (string * value) :=
  [("DeployDlgCloseWindow", VBool true);
   ("nirviShowErrorDialogs", VBool false);
   ("nirviShowErrorDialogsOld", VBool false);
   ("NiFpga_BuildPrompt_SelectCompileServer", VBool false);
   ("DWarnDialog", VBool false);
   ("SuppressRTConnectionDialogs", VBool true);
   ("neverShowAddonLicensingStartup", VBool true);
   ("neverShowLicensingStartupDialog", VBool true);
   ("SaveChanges_ApplyToAll", VBool true);
   ("SaveChangesAutoSelection", VStr (quoted "dont"));
   ("autoerr", VInt 3);
   ("NIERShowFatalDialog", VInt 0);
   ("NIERFatalAutoSend", VBool true);
   ("NIERSendDialogClose", VBool true);
   ("NIERShowNonFatalDialogOnExit", VBool false);
   ("NIERAutoSendAndSuppressAllDialogs", VBool true);
   ("AutoSaveEnabled", VBool false)].

Definition disable_dialogs (ini : dict) : dict := set_all dialog_settings ini.

(** [disable_ni_error_reporting]. *)
Definition disable_ni_error_reporting (ini : dict) : dict :=
  dict_set "NIER" (VBool false) ini.

(** [s.strip(...)] with the double and the single quote as the characters
    to strip. *)
Definition is_quote (c : ascii) : bool :=
  Ascii.eqb c dquote || Ascii.eqb c squote.

Fixpoint lstrip_quotes (s : string) : string :=
  match s with
  | EmptyString => EmptyString
  | String c r => if is_quote c then lstrip_quotes r else s
  end.

Fixpoint rstrip_quotes (s : string) : string :=
  match s with
  | EmptyString => EmptyString
  | String c r =>
      match rstrip_quotes r with
      | EmptyString => if is_quote c then EmptyString else String c EmptyString
      | r' => String c r'
      end
  end.

Definition strip_quotes (s : string) : string :=
  rstrip_quotes (lstrip_quotes s).

(** [s.split(sep)] for a separator of one character. *)
Fixpoint split (sep : ascii) (s : string) : list string :=
  match s with
  | EmptyString => [EmptyString]
  | String c r =>
      if Ascii.eqb c sep then EmptyString :: split sep r
      else
        match split sep r with
        | head :: tail => String c head :: tail
        | [] => [String c EmptyString]
        end
  end.

Definition default_search_path : string :=
  "<topvi>:\*;<foundvi>:\;<vilib>:\*;<userlib>:\*;<instrlib>:\*".

(** The entries [add_to_search_path] finds in the options. *)
Definition search_entries (ini : dict) : result config_exn (list string) :=
  match dict_get "viSearchPath" ini with
  | None => Ok (split ";" (strip_quotes default_search_path))
  | Some (VStr ini_paths) => Ok (split ";" (strip_quotes ini_paths))
  | Some _ => Raise AttributeError
  end.

(** The [if path not in ini_paths] statement of [add_to_search_path]. *)
Definition with_path (path : string) (append : bool)
    (ini_paths : list string) : list string :=
  if existsb (String.eqb path) ini_paths then ini_paths
  else if append then ini_paths ++ [path]
  else path :: ini_paths.

(** Its last statement but one: the entries joined and put between double
    quotes. *)
Definition join_entries (ini_paths : list string) : string :=
  quoted (String.concat
            (if Nat.ltb 2 (List.length ini_paths) then ";" else "")
            ini_paths).

(** [add_to_search_path]. *)
Definition add_to_search_path (path : string) (append : bool) (ini : dict)
    : result config_exn dict :=
  (let? ini_paths := search_entries ini in
   let ini_paths := with_path path append ini_paths in
   Ok (dict_set "viSearchPath" (VStr (join_entries ini_paths)) ini))%res.

(** What the entries [split] gives from a stripped string are like: there is
    one at least, none holds a semicolon, the first does not start and the
    last does not end with a quote. *)
Definition well_split (entries : list string) : Prop :=
  entries <> [] /\
  (forall e, In e entries -> split ";" e = [e]) /\
  lstrip_quotes (hd EmptyString entries) = hd EmptyString entries /\
  rstrip_quotes (last entries EmptyString) = last entries EmptyString.

(** ** labview.py: finding the installation *)

(** [needle in hay], for strings. *)
Fixpoint contains (needle hay : string) : bool :=
  String.prefix needle hay ||
  match hay with
  | EmptyString => false
  | String _ rest => contains needle rest
  end.

(** What the helpers answer about the machine: [is_os_64bit()],
    [get_labview_paths()] and [get_active_labview_path()], which raises
    [WindowsError] ([None] here) when the registry has neither key. *)
Record install_env : Type := mkInstallEnv {
  os_64bit : bool;
  labview_paths : list string;
  active_labview_path : option string
}.

(** The fields of a [LabVIEW] object that say which installation it
    drives. *)
Record installation : Type := mkInstallation {
  _version : option string;
  _bitness : option string;
  _path : option string
}.

Module Installation.

(** The part of [LabVIEW.__init__] that checks [bitness] and sets these
    fields. *)
Definition __init__ (version bitness : option string)
    : result config_exn installation :=
  match bitness with
  | Some b =>
      if negb (existsb (String.eqb (lower b)) ["x86"; "x64"])
      then Raise ValueError
      else Ok (mkInstallation version bitness None)
  | None => Ok (mkInstallation version bitness None)
  end.

(** [self._bitness == literal]. *)
Definition bitness_is (self : installation) (literal : string) : bool :=
  match _bitness self with
  | Some b => String.eqb b literal
  | None => false
  end.

(** The two [continue] tests of the loop of [path]. *)
Definition skipped (os_64bit : bool) (self : installation)
    (candidate : string) : bool :=
  (os_64bit && bitness_is self "x86" &&
   negb (contains "program files (x86)" (lower candidate)))
  || (bitness_is self "x64" &&
      contains "program files (x86)" (lower candidate)).

(** The candidate the loop stops at is the first that is not skipped and
    has the version in it. *)
Definition taken (os_64bit : bool) (self : installation) (version : string)
    (candidate : string) : bool :=
  negb (skipped os_64bit self candidate) &&
  contains (lower version) (lower candidate).

(** The [path] property: the path and the object with its [_path] set. *)
Definition path (env : install_env) (self : installation)
    : result config_exn (option string) * installation :=
  match _path self with
  | Some p => (Ok (Some p), self)
  | None =>
      match _version self with
      | None =>
          match active_labview_path env with
          | Some p =>
              (Ok (Some p),
               mkInstallation (_version self) (_bitness self) (Some p))
          | None => (Raise WindowsError, self)
          end
      | Some version =>
          if bitness_is self "x64" && negb (os_64bit env)
          then (Raise ValueError, self)
          else
            let found :=
              find (taken (os_64bit env) self version) (labview_paths env) in
            (Ok found, mkInstallation (_version self) (_bitness self) found)
      end
  end.

End Installation.

(** ** Cases for the installation *)

Module InstallExamples.

(** A 64-bit machine with LabVIEW 2014 (32-bit) and LabVIEW 2015 (both). *)
Definition lv2014_32 : string :=
  "C:\Program Files (x86)\National Instruments\LabVIEW 2014\".
Definition lv2015_32 : string :=
  "C:\Program Files (x86)\National Instruments\LabVIEW 2015\".
Definition lv2015_64 : string :=
  "C:\Program Files\National Instruments\LabVIEW 2015\".

Definition env64 : install_env :=
  mkInstallEnv true [lv2014_32; lv2015_32; lv2015_64] (Some lv2015_64).

End InstallExamples.

(** ** The first document *)

(** [bson.decode_all(packet)[0]]: the first of the decoded documents; the
    exception of [bson.decode_all] when it raises, and [IndexError] when it
    returns no document. *)
Definition first_document (r : bson_res (list dict)) : res dict :=
  match from_bson r with
  | Ok (d :: _) => Ok d
  | Ok [] => Raise IndexError
  | Raise e => Raise e
  end.

(** ** Cases for a controller of another host *)

Module RemoteExamples.
Import Examples MoreExamples.

Definition remote : LabVIEW := mkLabVIEW "10.2.13.32" lv_exe None cfg.

(** LabVIEW runs here as pid 4242; the target is idle, or runs a LabVIEW of
    its own. *)
Definition target_idle : world := mkWorld with_labview idle.
Definition target_busy : world := mkWorld with_labview with_other_labview.

End RemoteExamples.

(** * Properties *)

(** ** The process lifecycle *)

Lemma with_helpers_host_same (self : LabVIEW) (w : world) :
  with_helpers_host self w (helpers_host self w) = w.
Proof.
  unfold with_helpers_host, helpers_host.
  destruct w as [h t]; destruct (is_local self); reflexivity.
Qed.

Lemma helpers_host_with (self : LabVIEW) (w : world) (h : host) :
  helpers_host self (with_helpers_host self w h) = h.
Proof.
  unfold with_helpers_host, helpers_host.
  destruct (is_local self); reflexivity.
Qed.

Lemma get_process_some (p : option Z) (executable : string) (h : host)
    (proc : process) :
  LabVIEWHelpers._get_process p executable h = Some proc <->
  exists n, p = Some n /\ Process n h = Some proc /\
            lower (exe proc) = lower executable.
Proof.
  unfold LabVIEWHelpers._get_process. split.
  - destruct p as [n|]; [|discriminate].
    destruct (Process n h) as [q|] eqn:Hq; [|discriminate].
    destruct (String.eqb (lower (exe q)) (lower executable)) eqn:He;
      [|discriminate].
    intros [= <-]. exists n. apply String.eqb_eq in He. auto.
  - intros (n & -> & -> & He). apply String.eqb_eq in He.
    rewrite He. reflexivity.
Qed.

(** C5.  [is_running] answers true exactly when a process with the tracked
    pid exists, its executable path equals the tracked one once both are
    lower-cased, and the process reports itself as running; so it answers
    false when the pid belongs to a process with another executable path. *)
Theorem is_running_iff_same_executable (self : LabVIEW) (w : world) :
  (is_running self w = true <->
   exists n proc,
     _pid self = Some n /\
     Process n (helpers_host self w) = Some proc /\
     lower (exe proc) = lower (executable self) /\
     alive proc = true)
  /\
  (forall n proc,
     _pid self = Some n ->
     Process n (helpers_host self w) = Some proc ->
     lower (exe proc) <> lower (executable self) ->
     is_running self w = false).
Proof.
  unfold is_running, LabVIEWHelpers.process_is_running. split.
  - split.
    + destruct (LabVIEWHelpers._get_process _ _ _) as [proc|] eqn:Hg;
        [|discriminate].
      intros Ha. apply get_process_some in Hg as (n & Hp & Hq & He).
      exists n, proc. auto.
    + intros (n & proc & Hp & Hq & He & Ha).
      assert (Hg : LabVIEWHelpers._get_process (_pid self) (executable self)
                     (helpers_host self w) = Some proc)
        by (apply get_process_some; exists n; auto).
      rewrite Hg. exact Ha.
  - intros n proc Hp Hq Hne.
    destruct (LabVIEWHelpers._get_process _ _ _) as [q|] eqn:Hg;
      [|reflexivity].
    apply get_process_some in Hg as (m & Hp' & Hq' & He).
    rewrite Hp in Hp'. injection Hp' as <-.
    rewrite Hq in Hq'. injection Hq' as <-. contradiction.
Qed.

(** C7.  [client()] raises [NotStartedError] when the tracked process is not
    running and when the server was configured off; it returns a client, for
    the controller's host and the configured port, exactly when the process
    is running and the server is on. *)
Theorem client_requires_running_server (self : LabVIEW) (w : world) :
  (is_running self w = false -> client self w = Raise NotStartedError) /\
  (start (server_cfg self) = false -> client self w = Raise NotStartedError) /\
  (forall c, client self w = Ok c ->
     is_running self w = true /\ start (server_cfg self) = true /\
     c = mkLabVIEWClient (_host self) (port (server_cfg self))) /\
  (is_running self w = true -> start (server_cfg self) = true ->
     client self w = Ok (mkLabVIEWClient (_host self) (port (server_cfg self)))).
Proof.
  unfold client.
  destruct (is_running self w), (start (server_cfg self)); cbn;
    repeat split; intros; try discriminate; try reflexivity;
    try match goal with H : Ok _ = Ok _ |- _ => injection H as <- end;
    reflexivity.
Qed.

Lemma Process_after_exit (n : Z) (table pend : list process)
    (log : list (list string)) :
  Process n (mkHost (filter (fun q => negb (pid q =? n)) table) pend log)
  = None.
Proof.
  unfold Process; cbn. induction table as [|q table IH]; cbn; [reflexivity|].
  destruct (pid q =? n) eqn:E; cbn; [exact IH|]. rewrite E. exact IH.
Qed.

Lemma kill_no_match (timeout : option Z) (self : LabVIEW) (w : world) :
  LabVIEWHelpers._get_process (_pid self) (executable self)
    (helpers_host self w) = None ->
  kill timeout self w = (Ok tt, set_pid self None, w).
Proof.
  intros Hg. unfold kill, helpers_kill_process, LabVIEWHelpers.kill_process.
  rewrite Hg, with_helpers_host_same. reflexivity.
Qed.

Lemma kill_returns_cleared (timeout : option Z) (self : LabVIEW) (w : world)
    (r : unit) (self' : LabVIEW) (w' : world) :
  kill timeout self w = (Ok r, self', w') ->
  r = tt /\ self' = set_pid self None.
Proof.
  unfold kill.
  destruct (helpers_kill_process self timeout w) as [[u|e] w1];
    intros [= <- <- _]; auto.
Qed.

Lemma kill_matched_exits (timeout : option Z) (self : LabVIEW) (w : world)
    (proc : process) :
  LabVIEWHelpers._get_process (_pid self) (executable self)
    (helpers_host self w) = Some proc ->
  (is_local self = false \/ timeout = None \/
   exists t, timeout = Some t /\ exit_delay proc <= t) ->
  exists w', kill timeout self w = (Ok tt, set_pid self None, w') /\
             Process (pid proc) (helpers_host self w') = None.
Proof.
  intros Hg Hcase.
  unfold kill, helpers_kill_process, LabVIEWHelpers.kill_process.
  rewrite Hg. unfold LabVIEWHelpers.kill_and_wait.
  set (gone := mkHost _ _ _).
  assert (Hgone : Process (pid proc)
                    (helpers_host self (with_helpers_host self w gone)) = None)
    by (rewrite helpers_host_with; apply Process_after_exit).
  destruct (is_local self) eqn:Hl.
  - destruct timeout as [t|].
    + destruct Hcase as [Hc | [Hc | (t' & Hc & Hle)]]; try discriminate.
      injection Hc as <-. apply Z.leb_le in Hle. rewrite Hle.
      eexists; split; [reflexivity | exact Hgone].
    + eexists; split; [reflexivity | exact Hgone].
  - eexists; split; [reflexivity | exact Hgone].
Qed.

Lemma kill_matched_times_out (self : LabVIEW) (w : world) (proc : process)
    (t : Z) :
  LabVIEWHelpers._get_process (_pid self) (executable self)
    (helpers_host self w) = Some proc ->
  is_local self = true -> t < exit_delay proc ->
  kill (Some t) self w = (Raise TimeoutExpired, self, w).
Proof.
  intros Hg Hl Hlt.
  unfold kill, helpers_kill_process, LabVIEWHelpers.kill_process.
  rewrite Hg, Hl. unfold LabVIEWHelpers.kill_and_wait.
  apply Z.leb_gt in Hlt. rewrite Hlt, with_helpers_host_same. reflexivity.
Qed.

(** C4, as the code has it.  [kill] clears the tracked pid whenever
    [kill_process] returns: when no process matches, when the wait has no
    timeout (none given, or the remote helpers, which do not forward it), and
    when the process exits within the timeout.  When the local wait times
    out, [TimeoutExpired] reaches the caller and the controller is left as it
    was. *)
Theorem kill_clears_pid_when_wait_returns (timeout : option Z)
    (self : LabVIEW) (w : world) :
  (forall r self' w', kill timeout self w = (Ok r, self', w') ->
     _pid self' = None) /\
  (LabVIEWHelpers._get_process (_pid self) (executable self)
     (helpers_host self w) = None ->
   kill timeout self w = (Ok tt, set_pid self None, w)) /\
  (forall proc,
     LabVIEWHelpers._get_process (_pid self) (executable self)
       (helpers_host self w) = Some proc ->
     (is_local self = false \/ timeout = None \/
      exists t, timeout = Some t /\ exit_delay proc <= t) ->
     exists w', kill timeout self w = (Ok tt, set_pid self None, w') /\
                Process (pid proc) (helpers_host self w') = None) /\
  (forall proc t,
     LabVIEWHelpers._get_process (_pid self) (executable self)
       (helpers_host self w) = Some proc ->
     is_local self = true -> timeout = Some t -> t < exit_delay proc ->
     kill timeout self w = (Raise TimeoutExpired, self, w)).
Proof.
  split; [|split; [|split]].
  - intros r self' w' Hk.
    apply kill_returns_cleared in Hk as [_ ->]. reflexivity.
  - apply kill_no_match.
  - intros proc. apply kill_matched_exits.
  - intros proc t Hg Hl ->. apply kill_matched_times_out; assumption.
Qed.

(** C8.  [kill] on a controller whose handle matches no process (a pid of
    [None] included) returns without raising and leaves the pid [None]; so
    does [kill()] called twice in a row, and so does any second [kill] after
    a first one that returned. *)
Theorem kill_twice_or_unmatched (self : LabVIEW) (w : world) :
  (forall timeout,
     LabVIEWHelpers._get_process (_pid self) (executable self)
       (helpers_host self w) = None ->
     kill timeout self w = (Ok tt, set_pid self None, w)) /\
  (forall timeout, _pid self = None ->
     kill timeout self w = (Ok tt, set_pid self None, w)) /\
  (exists w1,
     kill None self w = (Ok tt, set_pid self None, w1) /\
     kill None (set_pid self None) w1 = (Ok tt, set_pid self None, w1)) /\
  (forall t1 t2 r self1 w1,
     kill t1 self w = (Ok r, self1, w1) ->
     _pid self1 = None /\ kill t2 self1 w1 = (Ok tt, self1, w1)).
Proof.
  assert (Hnone : forall t s v, _pid s = None ->
            kill t s v = (Ok tt, set_pid s None, v)).
  { intros t s v Hp. apply kill_no_match. rewrite Hp. reflexivity. }
  split; [|split; [|split]].
  - intros timeout. apply kill_no_match.
  - intros timeout. apply Hnone.
  - destruct (LabVIEWHelpers._get_process (_pid self) (executable self)
                (helpers_host self w)) as [proc|] eqn:Hg.
    + destruct (kill_matched_exits None self w proc Hg) as (w1 & Hk1 & _);
        [right; left; reflexivity|].
      exists w1. split; [exact Hk1|].
      apply (Hnone None (set_pid self None) w1). reflexivity.
    + exists w. split; [apply kill_no_match; exact Hg|].
      apply (Hnone None (set_pid self None) w). reflexivity.
  - intros t1 t2 r self1 w1 Hk.
    apply kill_returns_cleared in Hk as [_ ->].
    split; [reflexivity|].
    apply (Hnone t2 (set_pid self None) w1). reflexivity.
Qed.

Lemma adopt_running_none (tracked : option Z) (table : list process) :
  (forall q, In q table -> name q <> "LabVIEW.exe") ->
  adopt_running tracked table = tracked.
Proof.
  unfold adopt_running. revert tracked.
  induction table as [|q table IH]; intros tracked Hno; cbn; [reflexivity|].
  destruct (String.eqb (name q) "LabVIEW.exe") eqn:E.
  - apply String.eqb_eq in E. exfalso. apply (Hno q); [left; reflexivity|exact E].
  - apply IH. intros q' Hin. apply Hno. right. exact Hin.
Qed.

Lemma adopt_running_last (tracked : option Z)
    (before after : list process) (proc : process) :
  name proc = "LabVIEW.exe" ->
  (forall q, In q after -> name q <> "LabVIEW.exe") ->
  adopt_running tracked (before ++ proc :: after) = Some (pid proc).
Proof.
  intros Hn Hno. unfold adopt_running. rewrite fold_left_app. cbn.
  rewrite Hn. cbn. apply (adopt_running_none (Some (pid proc)) after Hno).
Qed.

Lemma start_process_launched (args : list string) (h : host) :
  launched (snd (LabVIEWHelpers.start_process args h)) = launched h ++ [args].
Proof.
  unfold LabVIEWHelpers.start_process. destruct (pending h); reflexivity.
Qed.

Lemma start_with_args_launched (args : list string) (self : LabVIEW)
    (w : world) :
  launched (helpers_host self (snd (start_with_args args self w)))
  = launched (helpers_host self w) ++ [executable self :: args].
Proof.
  unfold start_with_args.
  set (self1 := set_pid self _).
  assert (Hh : forall v, helpers_host self1 v = helpers_host self v)
    by reflexivity.
  assert (Hw : forall v h, with_helpers_host self1 v h = with_helpers_host self v h)
    by reflexivity.
  rewrite Hh.
  pose proof (start_process_launched (executable self :: args)
                (helpers_host self w)) as Hl.
  destruct (LabVIEWHelpers.start_process _ _) as [r h]. cbn in Hl.
  rewrite Hw.
  destruct (_pid self1), r; cbn; rewrite helpers_host_with; exact Hl.
Qed.

(** C3, as the code has it.  [start_with_args] calls [start_process] with
    the executable and the arguments once, whether or not a process named
    ["LabVIEW.exe"] is found.  When one is found on the controller's machine,
    the pid of the last one listed becomes the tracked pid and the pid of the
    child is dropped; the pid of the child is kept only when none is found
    and no pid was tracked. *)
Theorem start_with_args_adopts_and_launches (args : list string)
    (self : LabVIEW) (w : world) :
  exists r self' w',
    start_with_args args self w = (r, self', w') /\
    launched (helpers_host self w')
      = launched (helpers_host self w) ++ [executable self :: args] /\
    (forall before proc after,
       procs (here w) = before ++ proc :: after ->
       name proc = "LabVIEW.exe" ->
       (forall q, In q after -> name q <> "LabVIEW.exe") ->
       _pid self' = Some (pid proc)) /\
    ((forall q, In q (procs (here w)) -> name q <> "LabVIEW.exe") ->
     (forall n, _pid self = Some n -> _pid self' = Some n) /\
     (forall child rest,
        _pid self = None ->
        pending (helpers_host self w) = child :: rest ->
        r = Ok tt /\ _pid self' = Some (pid child) /\
        procs (helpers_host self w') = procs (helpers_host self w) ++ [child])).
Proof.
  destruct (start_with_args args self w) as [[r self'] w'] eqn:Hs.
  exists r, self', w'. split; [reflexivity|].
  split.
  { pose proof (start_with_args_launched args self w) as Hl.
    rewrite Hs in Hl. exact Hl. }
  unfold start_with_args in Hs.
  set (self1 := set_pid self _) in Hs.
  change (helpers_host self1 w) with (helpers_host self w) in Hs.
  change (with_helpers_host self1 w) with (with_helpers_host self w) in Hs.
  split.
  - intros before proc after Ht Hn Hno.
    assert (Hp : _pid self1 = Some (pid proc)).
    { cbn. rewrite Ht. apply adopt_running_last; assumption. }
    destruct (LabVIEWHelpers.start_process _ _) as [r0 h].
    rewrite Hp in Hs. destruct r0; injection Hs as _ <- _; exact Hp.
  - intros Hno.
    assert (Hp : _pid self1 = _pid self)
      by (cbn; apply adopt_running_none; exact Hno).
    split.
    + intros n Hn. rewrite Hn in Hp.
      destruct (LabVIEWHelpers.start_process _ _) as [r0 h].
      rewrite Hp in Hs. destruct r0; injection Hs as _ <- _; exact Hp.
    + intros child rest Hn Hpend. rewrite Hn in Hp.
      unfold LabVIEWHelpers.start_process in Hs. rewrite Hpend in Hs.
      rewrite Hp in Hs. injection Hs as <- <- <-.
      rewrite helpers_host_with. cbn. auto.
Qed.

(** ** The readiness wait *)

Lemma wait_loop_retries (self : LabVIEW) (timeout_s start_time : Z)
    (early later : list observation) :
  (forall o, In o early ->
     probe self o <> Ok tt /\ clock o - start_time <= timeout_s) ->
  wait_loop self timeout_s start_time (early ++ later)
  = wait_loop self timeout_s start_time later.
Proof.
  induction early as [|o early IH]; intros Hearly; cbn; [reflexivity|].
  destruct (Hearly o (or_introl eq_refl)) as [Hfail Hle].
  destruct (probe self o) as [[]|e]; [contradiction|].
  assert (Hgt : (clock o - start_time >? timeout_s) = false).
  { rewrite Z.gtb_ltb. apply Z.ltb_ge. exact Hle. }
  rewrite Hgt. apply IH. intros o' Hin. apply Hearly. right. exact Hin.
Qed.

Lemma wait_loop_raises (self : LabVIEW) (timeout_s start_time : Z)
    (script : list observation) (e : exn) :
  wait_loop self timeout_s start_time script = Some (Raise e) ->
  e = TimeoutError /\
  exists early o later,
    script = early ++ o :: later /\
    (forall o', In o' early ->
       probe self o' <> Ok tt /\ clock o' - start_time <= timeout_s) /\
    probe self o <> Ok tt /\ clock o - start_time > timeout_s.
Proof.
  induction script as [|o script IH]; cbn; [discriminate|].
  destruct (probe self o) as [[]|e'] eqn:Hp; [discriminate|].
  destruct (clock o - start_time >? timeout_s) eqn:Hgt.
  - intros [= <-]. split; [reflexivity|].
    exists [], o, script. split; [reflexivity|].
    split; [intros o' []|]. split; [rewrite Hp; discriminate|].
    rewrite Z.gtb_ltb in Hgt. apply Z.ltb_lt in Hgt. lia.
  - intros Hw. destruct (IH Hw) as (-> & early & o1 & later & -> & He & Ho).
    split; [reflexivity|]. exists (o :: early), o1, later.
    split; [reflexivity|]. split; [|exact Ho].
    intros o' [<-|Hin]; [|apply He; exact Hin].
    split; [rewrite Hp; discriminate|].
    rewrite Z.gtb_ltb in Hgt. apply Z.ltb_ge in Hgt. lia.
Qed.

(** C6, as the code has it.  While probes fail with the clock at most
    [timeout_s] past the start, the loop tries again.  After such turns, a
    probe that succeeds ends the wait successfully, however late it is, and a
    probe that fails with the clock more than [timeout_s] past the start
    raises [TimeoutError].  Nothing else is ever raised, and [TimeoutError]
    only with the clock more than [timeout_s] past the start. *)
Theorem wait_until_server_loaded_outcomes (self : LabVIEW)
    (timeout_s start_time : Z) (early later : list observation)
    (o : observation) :
  (forall o', In o' early ->
     probe self o' <> Ok tt /\ clock o' - start_time <= timeout_s) ->
  (probe self o = Ok tt ->
   wait_until_server_loaded self timeout_s start_time (early ++ o :: later)
   = Some (Ok tt)) /\
  (probe self o <> Ok tt -> clock o - start_time <= timeout_s ->
   wait_until_server_loaded self timeout_s start_time (early ++ o :: later)
   = wait_until_server_loaded self timeout_s start_time later) /\
  (probe self o <> Ok tt -> clock o - start_time > timeout_s ->
   wait_until_server_loaded self timeout_s start_time (early ++ o :: later)
   = Some (Raise TimeoutError)) /\
  (forall script e,
     wait_until_server_loaded self timeout_s start_time script
     = Some (Raise e) ->
     e = TimeoutError /\
     exists o', In o' script /\ probe self o' <> Ok tt /\
                clock o' - start_time > timeout_s).
Proof.
  intros Hearly. unfold wait_until_server_loaded.
  rewrite (wait_loop_retries self timeout_s start_time early (o :: later) Hearly).
  cbn. split; [|split; [|split]].
  - intros ->. reflexivity.
  - intros Hf Hle. destruct (probe self o) as [[]|e]; [contradiction|].
    assert (Hgt : (clock o - start_time >? timeout_s) = false)
      by (rewrite Z.gtb_ltb; apply Z.ltb_ge; exact Hle).
    rewrite Hgt. reflexivity.
  - intros Hf Hlate. destruct (probe self o) as [[]|e]; [contradiction|].
    assert (Hgt : (clock o - start_time >? timeout_s) = true)
      by (rewrite Z.gtb_ltb; apply Z.ltb_lt; lia).
    rewrite Hgt. reflexivity.
  - intros script e Hw.
    destruct (wait_loop_raises self timeout_s start_time script e Hw)
      as (-> & early' & o1 & later' & -> & _ & Hf & Hlate).
    split; [reflexivity|]. exists o1. split; [|auto].
    apply in_or_app. right. left. reflexivity.
Qed.

(** ** The socket and the framing loop *)

Lemma take_segment_spec (n : nat) (segs : list bytes) :
  fst (take_segment n segs) ++ List.concat (snd (take_segment n segs)) = List.concat segs
  /\ (List.length (fst (take_segment n segs)) <= n)%nat
  /\ ((0 < n)%nat -> List.concat segs <> [] -> fst (take_segment n segs) <> []).
Proof.
  induction segs as [|seg segs IH]; cbn.
  - repeat split; auto with arith.
  - destruct seg as [|c seg]; [exact IH|].
    cbn [fst snd]. split; [|split].
    + rewrite <- (firstn_skipn n (c :: seg)) at 3.
      rewrite <- app_assoc. f_equal.
      destruct (skipn n (c :: seg)); reflexivity.
    + apply firstn_le_length.
    + intros Hn _. destruct n; [lia|]. cbn. discriminate.
Qed.

Lemma recv_spec (n : nat) (s : socket) :
  fst (recv n s) ++ List.concat (inbox (snd (recv n s))) = List.concat (inbox s)
  /\ (List.length (fst (recv n s)) <= n)%nat
  /\ ((0 < n)%nat -> List.concat (inbox s) <> [] -> fst (recv n s) <> [])
  /\ outbox (snd (recv n s)) = outbox s.
Proof.
  unfold recv. pose proof (take_segment_spec n (inbox s)) as H.
  destruct (take_segment n (inbox s)) as [got segs]. cbn in *.
  tauto.
Qed.

Section ClientProperties.
Context {bson : BsonLibrary}.

(** What the loop has read is what it started with followed by bytes of
    the stream, in order. *)
Lemma recv_loop_extends (fuel : nat) (size : Z) (packet : bytes)
    (s : socket) :
  exists more,
    fst (recv_loop fuel size packet s) = packet ++ more /\
    more ++ List.concat (inbox (snd (recv_loop fuel size packet s)))
    = List.concat (inbox s).
Proof.
  revert packet s. induction fuel as [|fuel IH]; intros packet s; cbn.
  - exists []. destruct (_ <? _); cbn; rewrite app_nil_r; auto.
  - destruct (_ <? _); [|exists []; cbn; rewrite app_nil_r; auto].
    pose proof (recv_spec
                  (Z.to_nat (size - Z.of_nat (List.length packet))) s)
      as (Hcat & _ & _ & _).
    destruct (recv _ s) as [got s']. cbn [fst snd] in Hcat.
    destruct got as [|c got].
    + exists []. cbn. rewrite app_nil_r. auto.
    + destruct (IH (packet ++ c :: got) s') as (more & Hp & Hm).
      exists ((c :: got) ++ more). split.
      * rewrite Hp, app_assoc. reflexivity.
      * rewrite <- app_assoc, Hm. exact Hcat.
Qed.

(** With the fuel [_recv_dict] gives it, the loop stops for one of the two
    reasons the source has: the packet has the declared size, or the stream
    is closed. *)
Lemma recv_loop_stops (fuel : nat) (size : Z) (packet : bytes) (s : socket) :
  size - Z.of_nat (List.length packet) <= Z.of_nat fuel ->
  size <= Z.of_nat (List.length (fst (recv_loop fuel size packet s))) \/
  List.concat (inbox (snd (recv_loop fuel size packet s))) = [].
Proof.
  revert packet s. induction fuel as [|fuel IH]; intros packet s Hf; cbn.
  - destruct (_ <? _) eqn:E; cbn; [apply Z.ltb_lt in E; lia|].
    apply Z.ltb_ge in E. left; lia.
  - destruct (_ <? _) eqn:E; [|apply Z.ltb_ge in E; left; cbn; lia].
    apply Z.ltb_lt in E.
    pose proof (recv_spec
                  (Z.to_nat (size - Z.of_nat (List.length packet))) s)
      as (Hcat & _ & Hne & _).
    destruct (recv _ s) as [got s']. cbn [fst snd] in Hcat, Hne.
    destruct got as [|c got].
    + right. cbn.
      destruct (List.concat (inbox s)) eqn:Hc.
      * cbn in Hcat. exact Hcat.
      * exfalso. apply Hne; [lia|discriminate|reflexivity].
    + apply IH. rewrite length_app. cbn [List.length]. lia.
Qed.

(** The result does not depend on the fuel, once there is enough. *)
Lemma recv_loop_fuel (fuel fuel' : nat) (size : Z) (packet : bytes)
    (s : socket) :
  size - Z.of_nat (List.length packet) <= Z.of_nat fuel ->
  size - Z.of_nat (List.length packet) <= Z.of_nat fuel' ->
  recv_loop fuel size packet s = recv_loop fuel' size packet s.
Proof.
  revert fuel' packet s.
  induction fuel as [|fuel IH]; intros fuel' packet s Hf Hf'.
  - destruct fuel'; cbn; [reflexivity|].
    destruct (_ <? _) eqn:E; [apply Z.ltb_lt in E; lia|reflexivity].
  - destruct fuel'; cbn.
    + destruct (_ <? _) eqn:E; [apply Z.ltb_lt in E; lia|reflexivity].
    + destruct (_ <? _) eqn:E; [|reflexivity]. apply Z.ltb_lt in E.
      destruct (recv _ s) as [got s'].
      destruct got as [|c got]; [reflexivity|].
      apply IH; rewrite length_app; cbn [List.length]; lia.
Qed.

(** When the stream holds exactly the bytes the packet still lacks, the
    loop collects all of them. *)
Lemma recv_loop_collects (fuel : nat) (size : Z) (packet : bytes)
    (s : socket) :
  size = Z.of_nat (List.length packet + List.length (List.concat (inbox s))) ->
  (List.length (List.concat (inbox s)) <= fuel)%nat ->
  fst (recv_loop fuel size packet s) = packet ++ List.concat (inbox s).
Proof.
  intros Hsize Hfuel.
  destruct (recv_loop_extends fuel size packet s) as (more & Hp & Hm).
  destruct (recv_loop_stops fuel size packet s) as [Hfull | Hclosed];
    [lia| |].
  - rewrite Hp in *. rewrite <- Hm in Hsize.
    rewrite !length_app in *.
    assert (Hz : List.length
                   (List.concat (inbox (snd (recv_loop fuel size packet s))))
                 = 0%nat) by lia.
    apply length_zero_iff_nil in Hz. rewrite Hz, app_nil_r in Hm.
    rewrite Hm. reflexivity.
  - rewrite Hclosed, app_nil_r in Hm. rewrite Hp, Hm. reflexivity.
Qed.
End ClientProperties.

(** ** The client *)

Lemma unpack_l_length (b : bytes) (n : Z) :
  unpack_l b = Ok n -> List.length b = 4%nat.
Proof.
  unfold unpack_l. destruct (Nat.eqb (List.length b) 4) eqn:E; [|discriminate].
  intros _. apply Nat.eqb_eq. exact E.
Qed.

Lemma firstn_exact {A : Type} (a b : list A) (n : nat) :
  List.length a = n -> firstn n (a ++ b) = a.
Proof.
  intros <-. rewrite firstn_app, Nat.sub_diag, firstn_all. cbn.
  apply app_nil_r.
Qed.

Section ClientTheorems.
Context {bson : BsonLibrary}.
Local Open Scope M_scope.

Lemma perform_unfold (c : call) :
  perform c =
  (_send_dict (message_of c) ;;
   return_vals <- _recv_dict ;;
   _check_for_error return_vals ;;
   ret return_vals).
Proof. destruct c; reflexivity. Qed.

Lemma send_dict_result (msg : dict) (s : socket) :
  _send_dict msg s =
  match bson_encode msg with
  | Ok b => (Ok tt, mkSocket (inbox s) (outbox s ++ b))
  | Raise e => (Raise (BsonError e), s)
  end.
Proof.
  unfold _send_dict, bind, lift, from_bson, send.
  destruct (bson_encode msg); reflexivity.
Qed.

Lemma send_dict_not_remote (msg : dict) (s s' : socket) (e : exn) :
  _send_dict msg s = (Raise e, s') -> is_remote_error e = false.
Proof.
  rewrite send_dict_result. destruct (bson_encode msg); [discriminate|].
  intros [= <- _]. reflexivity.
Qed.

Lemma recv_dict_not_remote (s s' : socket) (e : exn) :
  _recv_dict s = (Raise e, s') -> is_remote_error e = false.
Proof.
  unfold _recv_dict, bind, lift, ret, raise.
  destruct (recv 4 s) as [hdr s1].
  unfold unpack_l. destruct (Nat.eqb (List.length hdr) 4);
    [|intros [= <- _]; reflexivity].
  destruct (recv_loop _ _ _ _) as [packet s2].
  unfold from_bson. destruct (bson_decode_all packet) as [docs|be];
    [|intros [= <- _]; reflexivity].
  destruct docs; [intros [= <- _]; reflexivity|discriminate].
Qed.

Lemma describe_error_not_remote (error : value) (s s' : socket) (e : exn) :
  describe_error error s = (Raise e, s') -> is_remote_error e = false.
Proof.
  unfold describe_error, bind.
  destruct (_send_dict _ s) as [[u|e1] s1] eqn:Hs.
  - destruct (_recv_dict s1) as [[d|e2] s2] eqn:Hr.
    + unfold lift, subscript. destruct (dict_get "msg" d); [discriminate|].
      intros [= <- _]. reflexivity.
    + intros [= <- _]. exact (recv_dict_not_remote _ _ _ Hr).
  - intros [= <- _]. exact (send_dict_not_remote _ _ _ _ Hs).
Qed.

(** No status, or a status that tests false: nothing is raised. *)
Lemma check_for_error_passes (return_dict : dict) (s : socket) :
  status_flag return_dict = false ->
  _check_for_error return_dict s = (Ok tt, s).
Proof.
  unfold status_flag, _check_for_error, dict_has, subscript, bind, lift, ret.
  destruct (dict_get "RunVIState_Status" return_dict) as [flag|];
    [|reflexivity].
  cbn. intros ->. reflexivity.
Qed.

(** A status that tests true: the lookups, then [describe_error]. *)
Lemma check_for_error_raises (return_dict : dict) (flag : value)
    (s : socket) :
  dict_get "RunVIState_Status" return_dict = Some flag ->
  truthy flag = true ->
  _check_for_error return_dict s =
  match dict_get "RunVIState_Code" return_dict with
  | None => (Raise (KeyError "RunVIState_Code"), s)
  | Some code =>
      match dict_get "RunVIState_Source" return_dict with
      | None => (Raise (KeyError "RunVIState_Source"), s)
      | Some source =>
          match describe_error
                  (VDict [("code", code); ("status", flag);
                          ("source", source)]) s with
          | (Ok message, s') => (Raise (RemoteError code source message), s')
          | (Raise e, s') => (Raise e, s')
          end
      end
  end.
Proof.
  intros Hflag Htrue.
  unfold _check_for_error, dict_has, subscript, bind, lift, raise.
  rewrite Hflag. cbn. rewrite Htrue.
  destruct (dict_get "RunVIState_Code" return_dict) as [code|];
    [|reflexivity].
  destruct (dict_get "RunVIState_Source" return_dict) as [source|];
    [|reflexivity].
  destruct (describe_error _ s) as [[message|e] s']; reflexivity.
Qed.

Lemma check_for_error_remote (return_dict : dict) (s s' : socket)
    (code source message : value) :
  _check_for_error return_dict s
  = (Raise (RemoteError code source message), s') ->
  exists flag,
    dict_get "RunVIState_Status" return_dict = Some flag /\
    truthy flag = true /\
    dict_get "RunVIState_Code" return_dict = Some code /\
    dict_get "RunVIState_Source" return_dict = Some source /\
    describe_error
      (VDict [("code", code); ("status", flag); ("source", source)]) s
    = (Ok message, s').
Proof.
  destruct (status_flag return_dict) eqn:Hst.
  - unfold status_flag in Hst.
    destruct (dict_get "RunVIState_Status" return_dict) as [flag|] eqn:Hflag;
      [|discriminate].
    rewrite (check_for_error_raises return_dict flag s Hflag Hst).
    destruct (dict_get "RunVIState_Code" return_dict) as [c|];
      [|discriminate].
    destruct (dict_get "RunVIState_Source" return_dict) as [so|];
      [|discriminate].
    destruct (describe_error _ s) as [[m|e] s1] eqn:Hd.
    + intros [= <- <- <- <-]. exists flag. auto.
    + intros [= -> _]. apply describe_error_not_remote in Hd. discriminate.
  - rewrite (check_for_error_passes return_dict s Hst). discriminate.
Qed.

Lemma perform_after_exchange (c : call) (s : socket) :
  perform c s =
  match (_send_dict (message_of c) ;; _recv_dict) s with
  | (Ok return_vals, s1) =>
      match _check_for_error return_vals s1 with
      | (Ok _, s2) => (Ok return_vals, s2)
      | (Raise e, s2) => (Raise e, s2)
      end
  | (Raise e, s1) => (Raise e, s1)
  end.
Proof.
  rewrite perform_unfold. unfold bind, ret.
  destruct (_send_dict (message_of c) s) as [[u|e] s0]; [|reflexivity].
  destruct (_recv_dict s0) as [[d|e] s1]; reflexivity.
Qed.

Lemma exchange_not_remote (msg : dict) (s s1 : socket) (e : exn) :
  (_send_dict msg ;; _recv_dict) s = (Raise e, s1) ->
  is_remote_error e = false.
Proof.
  unfold bind. destruct (_send_dict msg s) as [[u|e0] s0] eqn:Hs.
  - apply recv_dict_not_remote.
  - intros [= <- _]. exact (send_dict_not_remote _ _ _ _ Hs).
Qed.

(** C10.  With a status that tests true and no ['RunVIState_Code'] or no
    ['RunVIState_Source'], the check raises [KeyError] for the missing key,
    in [_check_for_error] and so in the three calls; an [Error] is raised
    only from a response that has all three keys. *)
Theorem check_for_error_missing_key (return_dict : dict) (s : socket) :
  (forall flag,
     dict_get "RunVIState_Status" return_dict = Some flag ->
     truthy flag = true ->
     (dict_get "RunVIState_Code" return_dict = None ->
      _check_for_error return_dict s
      = (Raise (KeyError "RunVIState_Code"), s)) /\
     (dict_has "RunVIState_Code" return_dict = true ->
      dict_get "RunVIState_Source" return_dict = None ->
      _check_for_error return_dict s
      = (Raise (KeyError "RunVIState_Source"), s)) /\
     (forall c s0 key,
        (_send_dict (message_of c) ;; _recv_dict) s0 = (Ok return_dict, s) ->
        _check_for_error return_dict s = (Raise (KeyError key), s) ->
        perform c s0 = (Raise (KeyError key), s))) /\
  (forall code source message s',
     _check_for_error return_dict s
     = (Raise (RemoteError code source message), s') ->
     dict_has "RunVIState_Status" return_dict = true /\
     dict_has "RunVIState_Code" return_dict = true /\
     dict_has "RunVIState_Source" return_dict = true).
Proof.
  split.
  - intros flag Hflag Htrue.
    pose proof (check_for_error_raises return_dict flag s Hflag Htrue) as Hc.
    split; [|split].
    + intros Hcode. rewrite Hc, Hcode. reflexivity.
    + unfold dict_has. intros Hcode Hsource. rewrite Hc, Hsource.
      destruct (dict_get "RunVIState_Code" return_dict);
        [reflexivity|discriminate].
    + intros c s0 key Hx Hk. rewrite perform_after_exchange, Hx, Hk.
      reflexivity.
  - intros code source message s' Hr.
    apply check_for_error_remote in Hr
      as (flag & Hf & _ & Hc & Hs & _).
    unfold dict_has. rewrite Hf, Hc, Hs. auto.
Qed.

(** C1, as the code has it.  For each of the three calls: when sending or
    receiving fails, that exception is raised, and it is not an [Error].
    When a response arrives that has no status or a status testing false,
    it is returned as it is.  When its status tests true, its code and
    source are there and [describe_error] returns a message, an [Error]
    with that code, source and message is raised; and an [Error] is raised
    in no other case. *)
Theorem perform_error_policy (c : call) (s : socket) :
  (forall e s1,
     (_send_dict (message_of c) ;; _recv_dict) s = (Raise e, s1) ->
     perform c s = (Raise e, s1) /\ is_remote_error e = false) /\
  (forall return_dict s1,
     (_send_dict (message_of c) ;; _recv_dict) s = (Ok return_dict, s1) ->
     (status_flag return_dict = false ->
      perform c s = (Ok return_dict, s1)) /\
     (forall flag code source message s2,
        dict_get "RunVIState_Status" return_dict = Some flag ->
        truthy flag = true ->
        dict_get "RunVIState_Code" return_dict = Some code ->
        dict_get "RunVIState_Source" return_dict = Some source ->
        describe_error
          (VDict [("code", code); ("status", flag); ("source", source)]) s1
        = (Ok message, s2) ->
        perform c s = (Raise (RemoteError code source message), s2)) /\
     (forall code source message s2,
        perform c s = (Raise (RemoteError code source message), s2) ->
        exists flag,
          dict_get "RunVIState_Status" return_dict = Some flag /\
          truthy flag = true /\
          dict_get "RunVIState_Code" return_dict = Some code /\
          dict_get "RunVIState_Source" return_dict = Some source /\
          describe_error
            (VDict [("code", code); ("status", flag); ("source", source)]) s1
          = (Ok message, s2)) /\
     (forall d s2, perform c s = (Ok d, s2) ->
        d = return_dict /\ s2 = s1 /\ status_flag return_dict = false)).
Proof.
  rewrite perform_after_exchange. split.
  - intros e s1 Hx. rewrite Hx. split; [reflexivity|].
    exact (exchange_not_remote _ _ _ _ Hx).
  - intros return_dict s1 Hx. rewrite Hx.
    split; [|split; [|split]].
    + intros Hst. rewrite (check_for_error_passes _ _ Hst). reflexivity.
    + intros flag code source message s2 Hf Ht Hc Hso Hd.
      rewrite (check_for_error_raises _ _ _ Hf Ht), Hc, Hso, Hd.
      reflexivity.
    + intros code source message s2.
      destruct (_check_for_error return_dict s1) as [[u'|e] s1'] eqn:Hk;
        [discriminate|].
      intros [= -> ->]. exact (check_for_error_remote _ _ _ _ _ _ Hk).
    + intros d s2.
      destruct (_check_for_error return_dict s1) as [[u'|e] s1'] eqn:Hk;
        [|discriminate].
      intros [= <- <-].
      destruct (status_flag return_dict) eqn:Hst.
      * exfalso. unfold status_flag in Hst.
        destruct (dict_get "RunVIState_Status" return_dict) as [flag|] eqn:Hf;
          [|discriminate].
        rewrite (check_for_error_raises _ _ _ Hf Hst) in Hk.
        destruct (dict_get "RunVIState_Code" return_dict);
          [|discriminate].
        destruct (dict_get "RunVIState_Source" return_dict);
          [|discriminate].
        destruct (describe_error _ s1) as [[m|e] sd]; discriminate.
      * rewrite (check_for_error_passes _ _ Hst) in Hk.
        injection Hk as <-. auto.
Qed.


(** When the first read brings fewer than the four bytes of the length,
    [struct.unpack] raises and nothing is decoded. *)
Lemma recv_dict_short_header (s : socket) :
  List.length (fst (recv 4 s)) <> 4%nat ->
  _recv_dict s = (Raise StructError, snd (recv 4 s)).
Proof.
  intros Hshort. unfold _recv_dict, bind, lift, unpack_l.
  destruct (recv 4 s) as [hdr s1]. cbn [fst snd] in *.
  apply Nat.eqb_neq in Hshort. rewrite Hshort. reflexivity.
Qed.


End ClientTheorems.

(** ** The BSON codec *)

Lemma Z_of_byte_of_Z (z : Z) : Z_of_byte (byte_of_Z z) = z mod 256.
Proof.
  unfold Z_of_byte, byte_of_Z.
  assert (Hr : 0 <= z mod 256 < 256) by (apply Z.mod_pos_bound; lia).
  destruct (Byte.of_N (Z.to_N (z mod 256))) as [b|] eqn:E.
  - apply Byte.to_of_N in E. rewrite E. apply Z2N.id. lia.
  - apply Byte.of_N_None_iff in E. lia.
Qed.

Lemma Z_of_byte_range (b : byte) : 0 <= Z_of_byte b < 256.
Proof.
  unfold Z_of_byte. pose proof (Byte.to_N_bounded b). lia.
Qed.

Lemma le_encode_length (n : nat) (z : Z) : List.length (le_encode n z) = n.
Proof.
  revert z. induction n as [|n IH]; intros z; cbn; [reflexivity|].
  rewrite IH. reflexivity.
Qed.

Lemma le_decode_encode (n : nat) (z : Z) :
  le_decode (le_encode n z) = z mod 2 ^ (8 * Z.of_nat n).
Proof.
  revert z. induction n as [|n IH]; intros z.
  - cbn. rewrite Z.mod_1_r. reflexivity.
  - cbn [le_encode le_decode]. rewrite Z_of_byte_of_Z, IH.
    replace (8 * Z.of_nat (S n)) with (8 + 8 * Z.of_nat n) by lia.
    rewrite Z.pow_add_r by lia. change (2 ^ 8) with 256.
    rewrite Z.rem_mul_r by lia. reflexivity.
Qed.

Lemma to_signed_mod (bits z : Z) :
  0 < bits ->
  - 2 ^ (bits - 1) <= z < 2 ^ (bits - 1) ->
  to_signed bits (z mod 2 ^ bits) = z.
Proof.
  intros Hb Hz. unfold to_signed.
  assert (Hp : 2 ^ bits = 2 * 2 ^ (bits - 1)).
  { replace bits with (1 + (bits - 1)) at 1 by lia.
    rewrite Z.pow_add_r by lia. reflexivity. }
  assert (Hpos : 0 < 2 ^ (bits - 1)) by (apply Z.pow_pos_nonneg; lia).
  destruct (Z_lt_le_dec z 0) as [Hneg | Hnn].
  - assert (Hm : z mod 2 ^ bits = z + 2 ^ bits).
    { symmetry. apply (Z.mod_unique z (2 ^ bits) (-1)); lia. }
    rewrite Hm. destruct (_ <? _) eqn:E; [apply Z.ltb_lt in E; lia|lia].
  - rewrite Z.mod_small by lia.
    destruct (_ <? _) eqn:E; [reflexivity|apply Z.ltb_ge in E; lia].
Qed.

Lemma in_int32_range (z : Z) :
  in_int32 z = true -> - 2 ^ 31 <= z < 2 ^ 31.
Proof.
  unfold in_int32, int32_min, int32_max. intros H.
  apply andb_true_iff in H as [H1 H2].
  apply Z.leb_le in H1, H2. lia.
Qed.

Lemma in_int64_range (z : Z) :
  in_int64 z = true -> - 2 ^ 63 <= z < 2 ^ 63.
Proof.
  unfold in_int64, int64_min, int64_max. intros H.
  apply andb_true_iff in H as [H1 H2].
  apply Z.leb_le in H1, H2. lia.
Qed.

Lemma unpack_l_encode (z : Z) (rest : bytes) :
  in_int32 z = true ->
  unpack_l (firstn 4 (le_encode 4 z ++ rest)) = Ok z.
Proof.
  intros Hz. rewrite (firstn_exact _ rest 4 (le_encode_length 4 z)).
  unfold unpack_l. rewrite le_encode_length. cbn [Nat.eqb].
  rewrite le_decode_encode. change (8 * Z.of_nat 4) with 32.
  rewrite (to_signed_mod 32 z) by (try lia; apply in_int32_range; exact Hz).
  reflexivity.
Qed.

Module BsonFacts.
Import Bson.

Lemma get_int_encode (n : nat) (z : Z) (rest : bytes) :
  (0 < n)%nat ->
  - 2 ^ (8 * Z.of_nat n - 1) <= z < 2 ^ (8 * Z.of_nat n - 1) ->
  get_int n (le_encode n z ++ rest) = Ok (z, rest).
Proof.
  intros Hn Hz. unfold get_int.
  rewrite length_app, le_encode_length.
  destruct (Nat.ltb _ _) eqn:E; [apply Nat.ltb_lt in E; lia|].
  rewrite (firstn_exact _ rest n (le_encode_length n z)).
  rewrite le_decode_encode, to_signed_mod by lia.
  f_equal. f_equal.
  rewrite <- (le_encode_length n z) at 1.
  rewrite skipn_app, skipn_all, Nat.sub_diag. reflexivity.
Qed.

Lemma get_c_string_cstring (key : string) (rest : bytes) :
  has_nul key = false ->
  get_c_string (cstring key ++ rest) = Ok (list_byte_of_string key, rest).
Proof.
  unfold has_nul, cstring.
  induction (list_byte_of_string key) as [|c l IH]; cbn; [reflexivity|].
  intros H. apply orb_false_iff in H as [Hc Hl].
  rewrite Hc, (IH Hl). reflexivity.
Qed.

Lemma split_at_length {A : Type} (a : list A) (x : A) (rest : list A) :
  nth_error (a ++ x :: rest) (List.length a) = Some x /\
  firstn (List.length a) (a ++ x :: rest) = a /\
  skipn (S (List.length a)) (a ++ x :: rest) = rest.
Proof.
  induction a as [|y a IH]; cbn; [auto|].
  destruct IH as (H1 & H2 & H3). rewrite H2. auto.
Qed.

Lemma pack_int_ok (z : Z) (b : bytes) :
  pack_int z = Ok b -> in_int32 z = true /\ b = le_encode 4 z.
Proof.
  unfold pack_int. destruct (in_int32 z); [|discriminate].
  intros [= <-]. auto.
Qed.

Lemma frame_ok (elements doc : bytes) :
  frame elements = Ok doc ->
  in_int32 (Z.of_nat (List.length elements) + 5) = true /\
  doc = le_encode 4 (Z.of_nat (List.length elements) + 5)
          ++ elements ++ [x00].
Proof.
  unfold frame, res_bind.
  destruct (pack_int _) as [size|] eqn:E; [|discriminate].
  apply pack_int_ok in E as [Hr ->]. intros [= <-]. auto.
Qed.

Lemma frame_length (elements doc : bytes) :
  frame elements = Ok doc ->
  List.length doc = (List.length elements + 5)%nat.
Proof.
  intros H. apply frame_ok in H as [_ ->].
  rewrite !length_app, le_encode_length. cbn. lia.
Qed.

Lemma skipn_prefix {A : Type} (p l : list A) (k i : nat) :
  List.length p = k -> skipn (k + i) (p ++ l) = skipn i l.
Proof.
  intros <-. induction p as [|x p IH]; cbn; [reflexivity|exact IH].
Qed.

Lemma nth_error_prefix {A : Type} (p l : list A) (k i : nat) :
  List.length p = k -> nth_error (p ++ l) (k + i) = nth_error l i.
Proof.
  intros <-. induction p as [|x p IH]; cbn; [reflexivity|exact IH].
Qed.

Lemma get_frame_frame (elements doc rest : bytes) :
  frame elements = Ok doc ->
  get_frame (doc ++ rest) = Ok (elements, rest).
Proof.
  intros H. apply frame_ok in H as [Hr ->].
  set (n := List.length elements) in *.
  set (hdr := le_encode 4 (Z.of_nat n + 5)).
  assert (Hh : List.length hdr = 4%nat) by apply le_encode_length.
  replace ((hdr ++ elements ++ [x00]) ++ rest)
    with (hdr ++ (elements ++ x00 :: rest))
    by (rewrite <- !app_assoc; reflexivity).
  unfold get_frame, res_bind.
  unfold hdr at 1.
  rewrite get_int_encode
    by (try lia; change (8 * Z.of_nat 4 - 1) with 31;
        apply in_int32_range; exact Hr).
  fold hdr. cbn [fst snd].
  rewrite !length_app, Hh. cbn [List.length]. fold n.
  repeat match goal with
         | |- context [?a <? ?b] =>
             let E := fresh "E" in
             destruct (a <? b) eqn:E; [apply Z.ltb_lt in E; lia|]
         end.
  replace (Z.to_nat (Z.of_nat n + 5)) with (4 + S n)%nat by lia.
  replace (4 + S n - 1)%nat with (4 + n)%nat by lia.
  replace (4 + S n - 5)%nat with n by lia.
  rewrite (nth_error_prefix hdr _ 4 n Hh).
  rewrite (skipn_prefix hdr _ 4 (S n) Hh).
  change 4%nat with (4 + 0)%nat at 1.
  rewrite (skipn_prefix hdr _ 4 0 Hh), skipn_O.
  destruct (split_at_length elements x00 rest) as (H1 & H2 & H3).
  fold n in H1, H2, H3. rewrite H1, H2, H3. reflexivity.
Qed.

Lemma get_string_encode (s : string) (size rest : bytes) :
  pack_int (Z.of_nat (List.length (list_byte_of_string s)) + 1) = Ok size ->
  get_string ((size ++ list_byte_of_string s ++ [x00]) ++ rest)
  = Ok (VStr s, rest).
Proof.
  intros H. apply pack_int_ok in H as [Hr ->].
  set (data := list_byte_of_string s).
  set (n := List.length data) in *.
  replace ((le_encode 4 (Z.of_nat n + 1) ++ data ++ [x00]) ++ rest)
    with (le_encode 4 (Z.of_nat n + 1) ++ (data ++ x00 :: rest))
    by (rewrite <- !app_assoc; reflexivity).
  unfold get_string, res_bind.
  rewrite get_int_encode
    by (try lia; change (8 * Z.of_nat 4 - 1) with 31;
        apply in_int32_range; exact Hr).
  cbn [fst snd].
  rewrite length_app. cbn [List.length]. fold n.
  repeat match goal with
         | |- context [?a <? ?b] =>
             let E := fresh "E" in
             destruct (a <? b) eqn:E; [apply Z.ltb_lt in E; lia|]
         end.
  replace (Z.to_nat (Z.of_nat n + 1)) with (S n) by lia.
  replace (S n - 1)%nat with n by lia.
  destruct (split_at_length data x00 rest) as (H1 & H2 & H3).
  fold n in H1, H2, H3. rewrite H1, H2, H3.
  unfold data. rewrite string_of_list_byte_of_string. reflexivity.
Qed.

(** Dicts with each key once. *)

Lemma keys_unique_NoDup (ks : list string) :
  keys_unique ks = true <-> NoDup ks.
Proof.
  induction ks as [|k ks IH]; cbn.
  - split; [constructor|reflexivity].
  - rewrite andb_true_iff, negb_true_iff, IH. split.
    + intros [Hk Hn]. constructor; [|exact Hn].
      intros Hin. assert (He : existsb (String.eqb k) ks = true).
      { apply existsb_exists. exists k. split; [exact Hin|apply String.eqb_refl]. }
      congruence.
    + intros Hn. inversion Hn as [|? ? Hk Hn']; subst. split; [|exact Hn'].
      destruct (existsb (String.eqb k) ks) eqn:He; [|reflexivity].
      apply existsb_exists in He as (k' & Hin & He).
      apply String.eqb_eq in He. subst k'. contradiction.
Qed.

Lemma dict_set_fresh (key : string) (v : value) (d : dict) :
  ~ In key (map fst d) -> dict_set key v d = d ++ [(key, v)].
Proof.
  induction d as [|[k w] d IH]; cbn; [reflexivity|].
  intros Hn. destruct (String.eqb key k) eqn:E.
  - apply String.eqb_eq in E. exfalso. apply Hn. left. symmetry. exact E.
  - rewrite IH; [reflexivity|]. intros Hin. apply Hn. right. exact Hin.
Qed.

Lemma fold_dict_set (items acc : dict) :
  NoDup (map fst (acc ++ items)) ->
  fold_left (fun a kv => dict_set (fst kv) (snd kv) a) items acc
  = acc ++ items.
Proof.
  revert acc. induction items as [|[k v] items IH]; intros acc Hn; cbn.
  - rewrite app_nil_r. reflexivity.
  - rewrite dict_set_fresh.
    + rewrite IH; rewrite <- app_assoc; [reflexivity|exact Hn].
    + rewrite map_app in Hn. cbn in Hn. apply NoDup_remove_2 in Hn.
      intros Hin. apply Hn. apply in_or_app. left. exact Hin.
Qed.

Lemma dict_get_unique (d : dict) (k : string) (v : value) :
  NoDup (map fst d) -> In (k, v) d -> dict_get k d = Some v.
Proof.
  induction d as [|[k' w] d IH]; cbn; [intros _ []|].
  intros Hn [Heq | Hin].
  - injection Heq as -> ->. rewrite String.eqb_refl. reflexivity.
  - inversion Hn as [|? ? Hk Hn']; subst.
    destruct (String.eqb k k') eqn:E.
    + apply String.eqb_eq in E. subst k'. exfalso. apply Hk.
      apply (in_map fst) in Hin. exact Hin.
    + apply IH; assumption.
Qed.

Lemma py_value_dict (d : dict) :
  py_value (VDict d) = true <->
  NoDup (map fst d) /\ Forall (fun kv => py_value (snd kv) = true) d.
Proof.
  cbn [py_value]. rewrite andb_true_iff, keys_unique_NoDup.
  apply and_iff_compat_l.
  induction d as [|[k w] d IH].
  - split; [constructor|reflexivity].
  - rewrite andb_true_iff, IH. split.
    + intros [Hw Hd]. constructor; assumption.
    + intros Hf. inversion Hf; subst. auto.
Qed.

Lemma py_value_list (l : list value) :
  py_value (VList l) = true <-> Forall (fun w => py_value w = true) l.
Proof.
  cbn [py_value]. rewrite forallb_forall, Forall_forall. reflexivity.
Qed.

Lemma element_ok (tag : byte) (key : string) (payload e : bytes) :
  element tag key payload = Ok e ->
  has_nul key = false /\ e = tag :: cstring key ++ payload.
Proof.
  unfold element. destruct (has_nul key); [discriminate|].
  intros [= <-]. auto.
Qed.

(** Takes an equation between two results apart without computing in
    it. *)
Ltac same_result H :=
  match type of H with
  | Ok (?a, ?b) = Ok (?c, ?d) =>
      assert (c = a /\ d = b) as [-> ->] by (split; congruence); clear H
  end.

Lemma dict_elements_roundtrip (d : dict) :
  Forall (fun kv => value_roundtrip (snd kv)) d ->
  Forall (fun kv => py_value (snd kv) = true) d ->
  forall es,
    elements_of_dict d = Ok es ->
    (need_dict d <= List.length es)%nat /\
    forall fuel, (need_dict d <= fuel)%nat -> get_elements fuel es = Ok d.
Proof.
  induction d as [|[k w] d IHd]; intros Hrt Hpy es.
  - cbn. intros [= <-]. split; [lia|]. intros fuel _.
    destruct fuel; reflexivity.
  - inversion Hrt as [|? ? Hw Hd]; inversion Hpy as [|? ? Hpw Hpd]; subst.
    cbn [snd] in *. cbn [elements_of_dict]. unfold res_bind.
    destruct (value_to_bson w) as [[tag payload]|] eqn:Ev; [|discriminate].
    cbn [fst snd].
    destruct (element tag k payload) as [e|] eqn:Ee; [|discriminate].
    destruct (elements_of_dict d) as [es'|] eqn:Ed; [|discriminate].
    intros [= <-].
    apply element_ok in Ee as [Hnul ->].
    destruct (Hw Hpw tag payload Ev) as [Hlen Hget].
    destruct (IHd Hd Hpd es' eq_refl) as [Hlen' Hget'].
    split.
    + cbn [need_dict]. cbn [List.length app]. rewrite !length_app.
      unfold cstring. rewrite length_app. cbn [List.length]. lia.
    + intros fuel Hfuel. cbn [need_dict] in Hfuel.
      destruct fuel as [|fuel]; [lia|].
      cbn [app get_elements]. unfold res_bind.
      rewrite <- !app_assoc, get_c_string_cstring by exact Hnul.
      cbn [fst snd]. rewrite Hget by lia. cbn [fst snd].
      rewrite Hget' by lia.
      rewrite string_of_list_byte_of_string. reflexivity.
Qed.

Lemma list_elements_roundtrip (l : list value) :
  Forall value_roundtrip l ->
  Forall (fun w => py_value w = true) l ->
  forall i es,
    elements_of_list i l = Ok es ->
    (need_list l <= List.length es)%nat /\
    forall fuel, (need_list l <= fuel)%nat ->
      exists items, get_elements fuel es = Ok items /\ map snd items = l.
Proof.
  induction l as [|w l IHl]; intros Hrt Hpy i es.
  - cbn. intros [= <-]. split; [lia|]. intros fuel _.
    exists []. destruct fuel; auto.
  - inversion Hrt as [|? ? Hw Hl]; inversion Hpy as [|? ? Hpw Hpl]; subst.
    cbn [elements_of_list]. unfold res_bind.
    destruct (value_to_bson w) as [[tag payload]|] eqn:Ev; [|discriminate].
    cbn [fst snd].
    destruct (element tag (index_key i) payload) as [e|] eqn:Ee;
      [|discriminate].
    destruct (elements_of_list (S i) l) as [es'|] eqn:El; [|discriminate].
    intros [= <-].
    apply element_ok in Ee as [Hnul ->].
    destruct (Hw Hpw tag payload Ev) as [Hlen Hget].
    destruct (IHl Hl Hpl (S i) es' El) as [Hlen' Hget'].
    split.
    + cbn [need_list]. cbn [List.length app]. rewrite !length_app.
      unfold cstring. rewrite length_app. cbn [List.length]. lia.
    + intros fuel Hfuel. cbn [need_list] in Hfuel.
      destruct fuel as [|fuel]; [lia|].
      destruct (Hget' fuel ltac:(lia)) as (items & Hitems & Hmap).
      exists ((index_key i, w) :: items). split; [|cbn; rewrite Hmap; reflexivity].
      cbn [app get_elements]. unfold res_bind.
      rewrite <- !app_assoc, get_c_string_cstring by exact Hnul.
      cbn [fst snd]. rewrite Hget by lia. cbn [fst snd].
      rewrite Hitems.
      rewrite string_of_list_byte_of_string. reflexivity.
Qed.

Lemma value_to_bson_roundtrip (v : value) : value_roundtrip v.
Proof.
  induction v as [| b | z | s | l IH | d IH] using value_ind';
    intros Hpy tag payload.
  - cbn. intros [= <- <-]. split; [lia|]. intros [|fuel] rest Hf; [lia|].
    reflexivity.
  - cbn. intros [= <- <-]. split; [lia|]. intros [|fuel] rest Hf; [lia|].
    destruct b; reflexivity.
  - cbn [value_to_bson].
    destruct (in_int32 z) eqn:E32; [|destruct (in_int64 z) eqn:E64].
    + intros H. same_result H. split; [cbn; lia|].
      intros [|fuel] rest Hf; [cbn in Hf; lia|].
      cbn [get_value]. unfold res_bind.
      rewrite (get_int_encode 4 z rest)
        by (try lia; change (8 * Z.of_nat 4 - 1) with 31;
            apply in_int32_range; exact E32).
      reflexivity.
    + intros H. same_result H. split; [cbn; lia|].
      intros [|fuel] rest Hf; [cbn in Hf; lia|].
      cbn [get_value]. unfold res_bind.
      rewrite (get_int_encode 8 z rest)
        by (try lia; change (8 * Z.of_nat 8 - 1) with 63;
            apply in_int64_range; exact E64).
      reflexivity.
    + discriminate.
  - cbn [value_to_bson]. unfold res_bind.
    destruct (pack_int _) as [size|] eqn:Ep; [|discriminate].
    intros H. same_result H. split; [cbn; lia|].
    intros [|fuel] rest Hf; [cbn in Hf; lia|].
    cbn [get_value]. apply get_string_encode. exact Ep.
  - apply py_value_list in Hpy.
    change (value_to_bson (VList l))
      with (let? elements := elements_of_list 0 l in
            let? doc := frame elements in Ok (x04, doc))%res.
    unfold res_bind.
    destruct (elements_of_list 0 l) as [es|] eqn:El; [|discriminate].
    destruct (frame es) as [doc|] eqn:Ef; [|discriminate].
    intros [= <- <-].
    destruct (list_elements_roundtrip l IH Hpy 0%nat es El) as [Hlen Hget].
    change (need (VList l)) with (S (need_list l)).
    split; [rewrite (frame_length _ _ Ef); lia|].
    intros [|fuel] rest Hf; [lia|].
    destruct (Hget fuel ltac:(lia)) as (items & Hitems & Hmap).
    cbn [get_value]. unfold res_bind.
    rewrite (get_frame_frame _ _ rest Ef). cbn [fst snd].
    rewrite Hitems, Hmap. reflexivity.
  - apply py_value_dict in Hpy as [Hn Hpy].
    change (value_to_bson (VDict d))
      with (let? elements := elements_of_dict d in
            let? doc := frame elements in Ok (x03, doc))%res.
    unfold res_bind.
    destruct (elements_of_dict d) as [es|] eqn:Ed; [|discriminate].
    destruct (frame es) as [doc|] eqn:Ef; [|discriminate].
    intros [= <- <-].
    destruct (dict_elements_roundtrip d IH Hpy es Ed) as [Hlen Hget].
    change (need (VDict d)) with (S (need_dict d)).
    split; [rewrite (frame_length _ _ Ef); lia|].
    intros [|fuel] rest Hf; [lia|].
    cbn [get_value]. unfold res_bind.
    rewrite (get_frame_frame _ _ rest Ef). cbn [fst snd].
    rewrite Hget by lia.
    rewrite (fold_dict_set d []) by exact Hn. reflexivity.
Qed.

Lemma encode_ok (d : dict) (b : bytes) :
  encode d = Ok b ->
  exists es, elements_of_dict d = Ok es /\ frame es = Ok b.
Proof.
  unfold encode, res_bind.
  destruct (elements_of_dict d) as [es|]; [|discriminate].
  intros H. exists es. auto.
Qed.

(** An encoded dict starts with its own length. *)
Lemma encode_length_prefix (d : dict) (b : bytes) :
  encode d = Ok b ->
  unpack_l (firstn 4 b) = Ok (Z.of_nat (List.length b)).
Proof.
  intros H. apply encode_ok in H as (es & _ & Hf).
  rewrite (frame_length _ _ Hf).
  apply frame_ok in Hf as [Hr ->].
  rewrite unpack_l_encode by exact Hr. f_equal. lia.
Qed.

Lemma get_document_encode (d : dict) (b : bytes) :
  py_dict d = true -> encode d = Ok b -> get_document b = Ok (d, []).
Proof.
  intros Hpy H. apply encode_ok in H as (es & He & Hf).
  apply py_value_dict in Hpy as [Hn Hpy].
  assert (Hrt : Forall (fun kv => value_roundtrip (snd kv)) d)
    by (apply Forall_forall; intros kv _; apply value_to_bson_roundtrip).
  destruct (dict_elements_roundtrip d Hrt Hpy es He) as [Hlen Hget].
  unfold get_document, res_bind.
  rewrite <- (app_nil_r b), (get_frame_frame _ _ [] Hf). cbn [fst snd].
  rewrite Hget by exact Hlen.
  rewrite (fold_dict_set d []) by exact Hn. reflexivity.
Qed.

(** Decoding an encoded dict gives the dict back. *)
Lemma decode_all_encode (d : dict) (b : bytes) :
  py_dict d = true -> encode d = Ok b -> decode_all b = Ok [d].
Proof.
  intros Hpy H. pose proof (get_document_encode d b Hpy H) as Hdoc.
  apply encode_ok in H as (es & _ & Hf).
  pose proof (frame_length _ _ Hf) as Hlen.
  unfold decode_all. rewrite Hlen.
  replace (List.length es + 5)%nat with (S (List.length es + 4)) by lia.
  cbn [decode_all_from]. rewrite Hlen.
  replace (Nat.leb (List.length es + 5) 1) with false
    by (symmetry; apply Nat.leb_gt; lia).
  unfold res_bind. rewrite Hdoc. cbn [fst snd].
  destruct (List.length es + 4)%nat; reflexivity.
Qed.

(** Data shorter than the length they declare are rejected. *)
Lemma decode_all_short (b : bytes) (n : Z) :
  unpack_l (firstn 4 b) = Ok n ->
  Z.of_nat (List.length b) < n ->
  decode_all b = Raise InvalidBSON.
Proof.
  intros Hu Hshort.
  pose proof (unpack_l_length _ _ Hu) as Hfour.
  assert (Hlen : (4 <= List.length b)%nat).
  { rewrite length_firstn in Hfour. lia. }
  unfold unpack_l in Hu. rewrite Hfour in Hu. cbn [Nat.eqb] in Hu.
  assert (Hn : to_signed 32 (le_decode (firstn 4 b)) = n) by congruence.
  clear Hu. unfold decode_all.
  destruct (List.length b) as [|fuel] eqn:El; [lia|].
  cbn [decode_all_from]. rewrite El.
  replace (Nat.leb (S fuel) 1) with false
    by (symmetry; apply Nat.leb_gt; lia).
  unfold res_bind, get_document, res_bind, get_frame, res_bind, get_int.
  rewrite El.
  replace (Nat.ltb (S fuel) 4) with false
    by (symmetry; apply Nat.ltb_ge; lia).
  cbn [fst snd]. change (8 * Z.of_nat 4) with 32. rewrite Hn.
  destruct (n <? 5); [reflexivity|].
  replace (Z.of_nat (S fuel) <? n) with true
    by (symmetry; apply Z.ltb_lt; lia).
  reflexivity.
Qed.
End BsonFacts.

(** The codec is a [BsonLibrary]. *)
#[export] Instance bson_codec : BsonLibrary := {|
  bson_encode := Bson.encode;
  bson_decode_all := Bson.decode_all;
  decode_all_short := BsonFacts.decode_all_short
|}.

(** * Worked cases *)

Section WorkedCases.
Import Examples.
Local Open Scope M_scope.

(** C1 does not hold as stated: a status of [true] with no code raises
    [KeyError], not [Error]. *)
Lemma status_true_is_not_always_remote_error :
  ~ (forall (c : call) (s s1 : socket) (return_dict : dict),
       (_send_dict (message_of c) ;; _recv_dict) s = (Ok return_dict, s1) ->
       ((exists code source message s2,
           perform c s = (Raise (RemoteError code source message), s2))
        <-> dict_get "RunVIState_Status" return_dict = Some (VBool true))).
Proof.
  intros Hclaim.
  destruct (Hclaim get_call (peer [bare_status])
              (snd ((_send_dict (message_of get_call) ;; _recv_dict)
                      (peer [bare_status])))
              bare_status) as [_ Hif]; [vm_compute; reflexivity|].
  destruct (Hif eq_refl) as (code & source & message & s2 & Hraise).
  vm_compute in Hraise. discriminate.
Qed.

Lemma perform_error_policy_witness :
  exists s2,
    perform get_call (peer [failed_reply; description])
    = (Raise (RemoteError (VInt 42) (VStr "X")
                (VStr "Error 42 occurred at X")), s2).
Proof.
  destruct (perform_error_policy get_call (peer [failed_reply; description]))
    as [_ Hreply].
  destruct (Hreply failed_reply
              (snd ((_send_dict (message_of get_call) ;; _recv_dict)
                      (peer [failed_reply; description]))))
    as (_ & Hraise & _); [vm_compute; reflexivity|].
  eexists.
  apply (Hraise (VBool true) (VInt 42) (VStr "X")
           (VStr "Error 42 occurred at X"));
    vm_compute; reflexivity.
Defined.

(** A status of 1 is not [true], and raises [Error] all the same. *)
Lemma numeric_status_raises_remote_error :
  dict_get "RunVIState_Status" numeric_status <> Some (VBool true) /\
  exists s2,
    perform get_call (peer [numeric_status; description])
    = (Raise (RemoteError (VInt 42) (VStr "X")
                (VStr "Error 42 occurred at X")), s2).
Proof.
  split; [discriminate|]. eexists. vm_compute. reflexivity.
Qed.

Lemma check_for_error_missing_key_witness :
  _check_for_error bare_status (peer [])
  = (Raise (KeyError "RunVIState_Code"), peer []).
Proof.
  destruct (check_for_error_missing_key bare_status (peer []))
    as [Hmissing _].
  destruct (Hmissing (VBool true) eq_refl eq_refl) as [Hcode _].
  apply Hcode. reflexivity.
Defined.



(** C9.  The encoded message of a call, as the socket delivers it.  In one
    segment, or in three of which the first has six bytes, [_recv_dict]
    returns the message as it was.  With a first segment of two bytes, the
    same bytes make it raise [struct.error]: [recv(4)] is called once and
    returns the two bytes, and the rest of the frame is left unread. *)
Theorem recv_dict_fragmented_length :
  _recv_dict (mkSocket [wire (message_of get_call)] [])
  = (Ok (message_of get_call), mkSocket [] []) /\
  _recv_dict
    (mkSocket [firstn 6 (wire (message_of get_call));
               firstn 30 (skipn 6 (wire (message_of get_call)));
               skipn 36 (wire (message_of get_call))] [])
  = (Ok (message_of get_call), mkSocket [] []) /\
  _recv_dict
    (mkSocket [firstn 2 (wire (message_of get_call));
               skipn 2 (wire (message_of get_call))] [])
  = (Raise StructError, mkSocket [skipn 2 (wire (message_of get_call))] []).
Proof.
  repeat split; vm_compute; reflexivity.
Qed.

(** C3 does not hold as stated: with LabVIEW already running, a process is
    launched all the same. *)
Lemma start_with_args_launches_beside_running :
  ~ (forall (args : list string) (self : LabVIEW) (w : world)
            (proc : process),
       In proc (procs (here w)) -> name proc = "LabVIEW.exe" ->
       launched (helpers_host self (snd (start_with_args args self w)))
       = launched (helpers_host self w)).
Proof.
  intros Hclaim.
  specialize (Hclaim ["Splash Screen.vi"] fresh (world_of with_labview)
                labview_proc (or_introl eq_refl) eq_refl).
  vm_compute in Hclaim. discriminate.
Qed.

Lemma start_with_args_adopts_and_launches_witness :
  _pid (snd (fst (start_with_args ["Splash Screen.vi"] fresh
                    (world_of with_labview)))) = Some 4242 /\
  launched (here (snd (start_with_args ["Splash Screen.vi"] fresh
                         (world_of with_labview))))
  = [[lv_exe; "Splash Screen.vi"]].
Proof.
  destruct (start_with_args_adopts_and_launches ["Splash Screen.vi"] fresh
              (world_of with_labview))
    as (r & self' & w' & Heq & Hlaunched & Hadopt & _).
  rewrite Heq. cbn [fst snd]. split.
  - apply (Hadopt [] labview_proc []); [reflexivity | reflexivity |].
    intros q [].
  - exact Hlaunched.
Defined.

(** C4 does not hold as stated: when the wait times out, [kill] raises and
    the pid stays. *)
Lemma kill_timeout_reaches_caller :
  ~ (forall (timeout : option Z) (self : LabVIEW) (w : world),
       exists w', kill timeout self w = (Ok tt, set_pid self None, w')).
Proof.
  intros Hclaim.
  destruct (Hclaim (Some 5) tracking (world_of with_labview)) as [w' Hk].
  vm_compute in Hk. discriminate.
Qed.

Lemma kill_clears_pid_when_wait_returns_witness :
  kill (Some 5) tracking (world_of with_labview)
  = (Raise TimeoutExpired, tracking, world_of with_labview) /\
  exists w', kill (Some 10) tracking (world_of with_labview)
             = (Ok tt, set_pid tracking None, w').
Proof.
  destruct (kill_clears_pid_when_wait_returns (Some 5) tracking
              (world_of with_labview)) as (_ & _ & _ & Hlate).
  destruct (kill_clears_pid_when_wait_returns (Some 10) tracking
              (world_of with_labview)) as (_ & _ & Hexits & _).
  split.
  - apply (Hlate labview_proc 5); [reflexivity | reflexivity | reflexivity|].
    cbn. lia.
  - destruct (Hexits labview_proc eq_refl) as (w' & Hk & _).
    + right. right. exists 10. split; [reflexivity|]. cbn. lia.
    + exists w'. exact Hk.
Defined.

Lemma is_running_iff_same_executable_witness :
  is_running tracking (world_of with_labview) = true /\
  is_running tracking (world_of with_notepad) = false.
Proof.
  split.
  - apply (proj1 (is_running_iff_same_executable tracking
                    (world_of with_labview))).
    exists 4242, labview_proc. repeat split; reflexivity.
  - apply (proj2 (is_running_iff_same_executable tracking
                    (world_of with_notepad)) 4242 notepad_proc);
      [reflexivity | reflexivity | discriminate].
Defined.

(** C6 does not hold as stated: no probe succeeds within the five ticks
    allowed, yet the wait ends successfully at the sixth. *)
Lemma late_success_is_not_a_timeout :
  ~ (forall (self : LabVIEW) (timeout_s start_time : Z)
            (script : list observation) (r : res unit),
       (forall o, In o script -> probe self o = Ok tt ->
                  clock o - start_time > timeout_s) ->
       wait_until_server_loaded self timeout_s start_time script = Some r ->
       r = Raise TimeoutError).
Proof.
  intros Hclaim.
  specialize (Hclaim tracking 5 0 [not_yet; up_late] (Ok tt)).
  assert (Hno : forall o, In o [not_yet; up_late] ->
                  probe tracking o = Ok tt -> clock o - 0 > 5).
  { intros o [<- | [<- | []]]; vm_compute; [discriminate|reflexivity]. }
  specialize (Hclaim Hno eq_refl). discriminate.
Qed.

Lemma wait_until_server_loaded_outcomes_witness :
  wait_until_server_loaded tracking 5 0 [not_yet; up_late] = Some (Ok tt) /\
  wait_until_server_loaded tracking 5 0 [not_yet; still_down]
  = Some (Raise TimeoutError).
Proof.
  assert (Hearly : forall o', In o' [not_yet] ->
            probe tracking o' <> Ok tt /\ clock o' - 0 <= 5).
  { intros o' [<- | []]. split; [discriminate | cbn; lia]. }
  split.
  - apply (proj1 (wait_until_server_loaded_outcomes tracking 5 0
                    [not_yet] [] up_late Hearly)).
    reflexivity.
  - destruct (wait_until_server_loaded_outcomes tracking 5 0
                [not_yet] [] still_down Hearly) as (_ & _ & Hlate & _).
    apply Hlate; [discriminate | cbn; lia].
Defined.

Lemma client_requires_running_server_witness :
  client tracking (world_of with_labview)
  = Ok (mkLabVIEWClient "localhost" 2552) /\
  client tracking (world_of with_notepad) = Raise NotStartedError.
Proof.
  split.
  - destruct (client_requires_running_server tracking
                (world_of with_labview)) as (_ & _ & _ & Hok).
    apply Hok; reflexivity.
  - destruct (client_requires_running_server tracking
                (world_of with_notepad)) as (Hdown & _).
    apply Hdown. reflexivity.
Defined.

Lemma kill_twice_or_unmatched_witness :
  kill None fresh (world_of idle) = (Ok tt, fresh, world_of idle) /\
  kill (Some 1) tracking (world_of with_notepad)
  = (Ok tt, fresh, world_of with_notepad).
Proof.
  split.
  - apply (proj1 (proj2 (kill_twice_or_unmatched fresh (world_of idle)))).
    reflexivity.
  - apply (proj1 (kill_twice_or_unmatched tracking (world_of with_notepad))).
    reflexivity.
Defined.
End WorkedCases.

(** * More of the client *)

Section ClientFrames.
Context {bson : BsonLibrary}.
Local Open Scope M_scope.

Lemma recv_loop_outbox (fuel : nat) (size : Z) (packet : bytes) (s : socket) :
  outbox (snd (recv_loop fuel size packet s)) = outbox s.
Proof.
  revert packet s. induction fuel as [|fuel IH]; intros packet s; cbn.
  - destruct (_ <? _); reflexivity.
  - destruct (_ <? _); [|reflexivity].
    pose proof (recv_spec
                  (Z.to_nat (size - Z.of_nat (List.length packet))) s)
      as (_ & _ & _ & Hout).
    destruct (recv _ s) as [got s']. cbn [fst snd] in Hout.
    destruct got as [|c got]; [exact Hout|].
    rewrite IH. exact Hout.
Qed.

(** The loop never reads past the declared size. *)
Lemma recv_loop_bounded (fuel : nat) (size : Z) (packet : bytes)
    (s : socket) :
  Z.of_nat (List.length packet) <= size ->
  Z.of_nat (List.length (fst (recv_loop fuel size packet s))) <= size.
Proof.
  revert packet s. induction fuel as [|fuel IH]; intros packet s Hle; cbn.
  - destruct (_ <? _); exact Hle.
  - destruct (_ <? _) eqn:E; [|exact Hle]. apply Z.ltb_lt in E.
    pose proof (recv_spec
                  (Z.to_nat (size - Z.of_nat (List.length packet))) s)
      as (_ & Hlen & _ & _).
    destruct (recv _ s) as [got s']. cbn [fst snd] in Hlen.
    destruct got as [|c got]; [exact Hle|].
    apply IH. rewrite length_app. lia.
Qed.

Lemma app_same_length {A : Type} (a b c d : list A) :
  a ++ b = c ++ d -> List.length a = List.length c -> a = c /\ b = d.
Proof.
  revert c. induction a as [|x a IH]; intros [|y c] H Hlen;
    try discriminate.
  - auto.
  - cbn in H. injection H as -> H. injection Hlen as Hlen.
    destruct (IH c H Hlen) as [-> ->]. auto.
Qed.

(** With enough bytes in the stream, the loop takes exactly the ones the
    packet lacks and leaves the others. *)
Lemma recv_loop_exact (size : Z) (packet need rest : bytes) (s : socket) :
  List.concat (inbox s) = need ++ rest ->
  size = Z.of_nat (List.length packet + List.length need) ->
  fst (recv_loop (Z.to_nat size) size packet s) = packet ++ need /\
  List.concat (inbox (snd (recv_loop (Z.to_nat size) size packet s))) = rest.
Proof.
  intros Hin Hsize.
  destruct (recv_loop_extends (Z.to_nat size) size packet s)
    as (more & Hp & Hm).
  pose proof (recv_loop_bounded (Z.to_nat size) size packet s ltac:(lia))
    as Hb.
  assert (Hlen : List.length more = List.length need).
  { destruct (recv_loop_stops (Z.to_nat size) size packet s) as [Hfull | Hclosed];
      [lia| |].
    - rewrite Hp, length_app in Hfull, Hb. lia.
    - rewrite Hclosed, app_nil_r in Hm. rewrite Hp, length_app in Hb.
      assert (Hl : List.length more
                   = (List.length need + List.length rest)%nat)
        by (rewrite Hm, Hin, length_app; reflexivity).
      lia. }
  rewrite Hin in Hm.
  destruct (app_same_length _ _ _ _ Hm Hlen) as [-> Hrest].
  split; [exact Hp | exact Hrest].
Qed.

(** X1.  A frame is a byte string whose first four bytes declare its own
    length.  When a frame is followed in the stream by other bytes and the
    first read brings the four bytes of the length, [_recv_dict] hands
    exactly the bytes of the frame to [bson.decode_all], however they are cut
    into segments, and its outcome is that of [bson.decode_all(frame)[0]];
    what is left to deliver is exactly what followed, and what was sent is
    untouched. *)
Theorem recv_dict_reads_one_frame (b rest : bytes) (t : socket) :
  unpack_l (firstn 4 b) = Ok (Z.of_nat (List.length b)) ->
  List.concat (inbox t) = b ++ rest ->
  List.length (fst (recv 4 t)) = 4%nat ->
  exists t',
    _recv_dict t = (first_document (bson_decode_all b), t') /\
    List.concat (inbox t') = rest /\ outbox t' = outbox t.
Proof.
  intros Hprefix Hin Hfour. unfold _recv_dict, bind, lift.
  pose proof (recv_spec 4 t) as (Hcat & _ & _ & Hout).
  pose proof (unpack_l_length _ _ Hprefix) as Hb4.
  destruct (recv 4 t) as [hdr t1]. cbn [fst snd] in *.
  rewrite Hin in Hcat.
  assert (Hsplit : b = firstn 4 b ++ skipn 4 b)
    by (symmetry; apply firstn_skipn).
  assert (Hhdr : hdr = firstn 4 b /\
                 List.concat (inbox t1) = skipn 4 b ++ rest).
  { apply app_same_length; [|congruence].
    rewrite Hcat, app_assoc, <- Hsplit. reflexivity. }
  destruct Hhdr as [Hhdr Hin1].
  assert (Hu : unpack_l hdr = Ok (Z.of_nat (List.length b)))
    by (rewrite Hhdr; exact Hprefix).
  rewrite Hu.
  destruct (recv_loop_exact (Z.of_nat (List.length b)) hdr (skipn 4 b) rest
              t1 Hin1) as [Hpacket Hleft].
  { rewrite Hsplit at 1. rewrite length_app, Hhdr. reflexivity. }
  pose proof (recv_loop_outbox (Z.to_nat (Z.of_nat (List.length b)))
                (Z.of_nat (List.length b)) hdr t1) as Hout2.
  destruct (recv_loop _ _ _ _) as [packet t2]. cbn [fst snd] in *.
  rewrite Hpacket, Hhdr, <- Hsplit. unfold first_document.
  exists t2.
  destruct (from_bson (bson_decode_all b)) as [[|d docs]|e]; cbn;
    (split; [reflexivity|split; [exact Hleft|congruence]]).
Qed.

(** X2.  A stream that closes with fewer than four bytes in all makes
    [_recv_dict] raise [struct.error]: the size cannot be unpacked, and no
    decoding is tried. *)
Theorem recv_dict_short_stream (s : socket) :
  (List.length (List.concat (inbox s)) < 4)%nat ->
  exists s', _recv_dict s = (Raise StructError, s').
Proof.
  intros Hshort. exists (snd (recv 4 s)).
  apply recv_dict_short_header.
  pose proof (recv_spec 4 s) as (Hcat & _ & _ & _).
  intros Hfour. rewrite <- Hcat, length_app in Hshort. lia.
Qed.

Lemma recv_dict_outbox (s s' : socket) (r : res dict) :
  _recv_dict s = (r, s') -> outbox s' = outbox s.
Proof.
  unfold _recv_dict, bind, lift, ret, raise.
  pose proof (recv_spec 4 s) as (_ & _ & _ & Hout).
  destruct (recv 4 s) as [hdr s1]. cbn [fst snd] in Hout.
  destruct (unpack_l hdr) as [size|e]; [|intros [= _ <-]; exact Hout].
  pose proof (recv_loop_outbox (Z.to_nat size) size hdr s1) as Hout2.
  destruct (recv_loop _ _ _ _) as [packet s2]. cbn [fst snd] in Hout2.
  destruct (from_bson (bson_decode_all packet)) as [[|d docs]|e];
    intros [= _ <-]; congruence.
Qed.

(** X3.  [describe_error] makes no status check of its own: whatever the
    reply holds besides, its ['msg'] is returned, and a reply without
    ['msg'] raises [KeyError]; an [Error] is never raised. *)
Theorem describe_error_returns_msg (error : value) (s : socket) :
  (forall e s', describe_error error s = (Raise e, s') ->
     is_remote_error e = false) /\
  (forall d s1,
     (_send_dict (describe_error_message error) ;; _recv_dict) s
     = (Ok d, s1) ->
     (forall m, dict_get "msg" d = Some m ->
        describe_error error s = (Ok m, s1)) /\
     (dict_get "msg" d = None ->
        describe_error error s = (Raise (KeyError "msg"), s1))).
Proof.
  split.
  - intros e s'. apply describe_error_not_remote.
  - intros d s1 Hx. unfold describe_error.
    change [("command", VStr "describe_error"); ("error", error)]
      with (describe_error_message error).
    unfold bind in *.
    destruct (_send_dict (describe_error_message error) s) as [[u|e] s0];
      [|discriminate].
    rewrite Hx. unfold lift, subscript.
    split; [intros m ->|intros ->]; reflexivity.
Qed.

Lemma describe_error_outbox (error m : value) (s s' : socket) :
  describe_error error s = (Ok m, s') ->
  exists b,
    bson_encode (describe_error_message error) = Ok b /\
    outbox s' = outbox s ++ b.
Proof.
  unfold describe_error.
  change [("command", VStr "describe_error"); ("error", error)]
    with (describe_error_message error).
  unfold bind. rewrite send_dict_result.
  destruct (bson_encode (describe_error_message error)) as [b|e];
    [|discriminate].
  destruct (_recv_dict _) as [[d|e] s1] eqn:Hr; [|discriminate].
  apply recv_dict_outbox in Hr. cbn in Hr.
  unfold lift. intros [= _ <-]. exists b. auto.
Qed.

(** X4.  What the three calls put on the wire.  When the message cannot be
    encoded, nothing is sent and nothing is read.  A call that returns has
    sent one frame, the encoding of its message.  A call that raises [Error]
    has sent two: its message, then the [describe_error] request whose error
    holds the code, the status and the source found in the response under
    ['RunVIState_Code'], ['RunVIState_Status'] and ['RunVIState_Source']. *)
Theorem perform_wire_trace (c : call) (s : socket) :
  (forall e, bson_encode (message_of c) = Raise e ->
     perform c s = (Raise (BsonError e), s)) /\
  (forall d s', perform c s = (Ok d, s') ->
     exists b,
       bson_encode (message_of c) = Ok b /\ outbox s' = outbox s ++ b) /\
  (forall code source message s',
     perform c s = (Raise (RemoteError code source message), s') ->
     exists return_dict s1 b b' flag,
       (_send_dict (message_of c) ;; _recv_dict) s = (Ok return_dict, s1) /\
       dict_get "RunVIState_Code" return_dict = Some code /\
       dict_get "RunVIState_Status" return_dict = Some flag /\
       dict_get "RunVIState_Source" return_dict = Some source /\
       bson_encode (message_of c) = Ok b /\
       bson_encode
         (describe_error_message
            (VDict [("code", code); ("status", flag); ("source", source)]))
       = Ok b' /\
       outbox s' = outbox s ++ b ++ b').
Proof.
  rewrite perform_after_exchange. unfold bind.
  rewrite send_dict_result.
  destruct (bson_encode (message_of c)) as [b|e0].
  - split; [discriminate|].
    destruct (_recv_dict _) as [[rv|e1] s1] eqn:Hr.
    + apply recv_dict_outbox in Hr. cbn in Hr. split.
      * intros d s'.
        destruct (_check_for_error rv s1) as [[u|e] s2] eqn:Hk;
          [|discriminate].
        intros [= <- <-]. exists b. split; [reflexivity|].
        destruct (status_flag rv) eqn:Hst.
        -- exfalso. unfold status_flag in Hst.
           destruct (dict_get "RunVIState_Status" rv) as [flag|] eqn:Hf;
             [|discriminate].
           rewrite (check_for_error_raises _ _ _ Hf Hst) in Hk.
           destruct (dict_get "RunVIState_Code" rv); [|discriminate].
           destruct (dict_get "RunVIState_Source" rv); [|discriminate].
           destruct (describe_error _ s1) as [[m|e] sd]; discriminate.
        -- rewrite (check_for_error_passes _ _ Hst) in Hk.
           injection Hk as _ <-. exact Hr.
      * intros code source message s'.
        destruct (_check_for_error rv s1) as [[u|e] s2] eqn:Hk;
          [discriminate|].
        intros [= -> ->].
        apply check_for_error_remote in Hk
          as (flag & Hf & _ & Hc & Hso & Hd).
        apply describe_error_outbox in Hd as (b' & Hb' & Hout).
        exists rv, s1, b, b', flag.
        repeat (split; [first [reflexivity | assumption]|]).
        rewrite Hout, Hr, app_assoc. reflexivity.
    + split; [discriminate|].
      intros code source message s' [= He _].
      apply recv_dict_not_remote in Hr. subst e1. discriminate.
  - split; [intros e [= <-]; reflexivity|].
    split; discriminate.
Qed.
End ClientFrames.

Section ClientFramesCases.
Import Examples.
Local Open Scope M_scope.

(** Two replies queued in one segment: the first call takes the first. *)
Lemma recv_dict_reads_one_frame_witness :
  exists t',
    _recv_dict (mkSocket [wire failed_reply ++ wire description] [])
    = (first_document (bson_decode_all (wire failed_reply)), t') /\
    List.concat (inbox t') = wire description /\ outbox t' = [].
Proof.
  apply (recv_dict_reads_one_frame (wire failed_reply) (wire description)
           (mkSocket [wire failed_reply ++ wire description] []));
    vm_compute; reflexivity.
Defined.

Lemma recv_dict_short_stream_witness :
  exists s', _recv_dict (mkSocket [[x10; x00]; [x00]] [])
             = (Raise StructError, s').
Proof.
  apply (recv_dict_short_stream (mkSocket [[x10; x00]; [x00]] [])).
  cbn. lia.
Defined.

(** A reply to [describe_error] that itself carries a failed status. *)
Lemma describe_error_returns_msg_witness :
  exists s1,
    describe_error (VInt 7)
      (peer [("RunVIState_Status", VBool true) :: description])
    = (Ok (VStr "Error 42 occurred at X"), s1).
Proof.
  destruct (describe_error_returns_msg (VInt 7)
              (peer [("RunVIState_Status", VBool true) :: description]))
    as [_ Hreply].
  eexists.
  apply (Hreply (("RunVIState_Status", VBool true) :: description));
    vm_compute; reflexivity.
Defined.

Lemma perform_wire_trace_witness :
  outbox (snd (perform get_call (peer [description])))
  = wire (message_of get_call).
Proof.
  destruct (perform_wire_trace get_call (peer [description]))
    as (_ & Hreturn & _).
  destruct (Hreturn description
              (snd (perform get_call (peer [description]))))
    as (b & Hb & Hout); [vm_compute; reflexivity|].
  rewrite Hout. unfold wire.
  change (@bson_encode bson_codec) with Bson.encode in Hb.
  rewrite Hb. reflexivity.
Defined.
End ClientFramesCases.

(** * More of the lifecycle *)

Lemma Process_app_found (n : Z) (table extra pend : list process)
    (log log' : list (list string)) (pend' : list process) (proc : process) :
  Process n (mkHost table pend log) = Some proc ->
  Process n (mkHost (table ++ extra) pend' log') = Some proc.
Proof.
  unfold Process; cbn. induction table as [|q table IH]; cbn; [discriminate|].
  destruct (pid q =? n); [auto|exact IH].
Qed.

Lemma Process_app_new (table pend' : list process)
    (log : list (list string)) (child : process) :
  (forall q, In q table -> pid q <> pid child) ->
  Process (pid child) (mkHost (table ++ [child]) pend' log) = Some child.
Proof.
  unfold Process; cbn. induction table as [|q table IH]; intros Hnew; cbn.
  - rewrite Z.eqb_refl. reflexivity.
  - destruct (pid q =? pid child) eqn:E.
    + apply Z.eqb_eq in E. exfalso.
      apply (Hnew q); [left; reflexivity|exact E].
    + apply IH. intros q' Hin. apply Hnew. right. exact Hin.
Qed.

Lemma Process_same_table (n : Z) (h h' : host) :
  procs h = procs h' -> Process n h = Process n h'.
Proof.
  unfold Process. intros ->. reflexivity.
Qed.

Lemma probe_ok (self : LabVIEW) (o : observation) :
  probe self o = Ok tt <->
  is_running self (seen o) = true /\ start (server_cfg self) = true /\
  accepts o = true.
Proof.
  unfold probe, client.
  destruct (is_running self (seen o)), (start (server_cfg self)), (accepts o);
    cbn; split; try discriminate; try tauto;
    intros (H1 & H2 & H3); discriminate.
Qed.

(** X5.  After a [kill] that returned, the controller tracks nothing:
    whatever the machines then look like, [is_running] answers false and
    [client()] raises [NotStartedError], until a process is started again. *)
Theorem kill_then_client_not_started (timeout : option Z) (self : LabVIEW)
    (w : world) (r : unit) (self' : LabVIEW) (w' : world) :
  kill timeout self w = (Ok r, self', w') ->
  forall later,
    is_running self' later = false /\
    client self' later = Raise NotStartedError.
Proof.
  intros Hk later. apply kill_returns_cleared in Hk as [_ ->].
  assert (Hr : is_running (set_pid self None) later = false) by reflexivity.
  split; [exact Hr|]. unfold client. rewrite Hr. reflexivity.
Qed.

(** X6.  On a machine with no process named ["LabVIEW.exe"], a controller
    that tracks nothing and launches a child whose pid is new, whose
    executable is the controller's (up to case) and which is alive, is
    running afterwards. *)
Theorem start_with_args_then_running (args : list string) (self : LabVIEW)
    (w : world) (child : process) (rest : list process) :
  (forall q, In q (procs (here w)) -> name q <> "LabVIEW.exe") ->
  _pid self = None ->
  pending (helpers_host self w) = child :: rest ->
  (forall q, In q (procs (helpers_host self w)) -> pid q <> pid child) ->
  lower (exe child) = lower (executable self) ->
  alive child = true ->
  exists self' w',
    start_with_args args self w = (Ok tt, self', w') /\
    _pid self' = Some (pid child) /\
    is_running self' w' = true.
Proof.
  intros Hno Hpid Hpend Hnew Hexe Halive.
  unfold start_with_args.
  set (self1 := set_pid self _).
  assert (Hp : _pid self1 = None).
  { cbn. rewrite (adopt_running_none _ _ Hno). exact Hpid. }
  change (helpers_host self1 w) with (helpers_host self w).
  change (with_helpers_host self1 w) with (with_helpers_host self w).
  unfold LabVIEWHelpers.start_process. rewrite Hpend, Hp.
  eexists. eexists. split; [reflexivity|]. split; [reflexivity|].
  unfold is_running, LabVIEWHelpers.process_is_running.
  match goal with
  | |- match ?g with _ => _ end = true =>
      assert (Hg : g = Some child); [|rewrite Hg; exact Halive]
  end.
  apply get_process_some. exists (pid child).
  split; [reflexivity|]. split; [|exact Hexe].
  change (helpers_host (set_pid self1 (Some (pid child))))
    with (helpers_host self).
  rewrite helpers_host_with.
  apply Process_app_new; exact Hnew.
Qed.

(** X7.  The adoption in [start_with_args] goes by process name alone.  When
    the last process named ["LabVIEW.exe"] on the controller's own machine
    runs another executable than the controller's, its pid is tracked all
    the same, and [is_running] answers false right after the start. *)
Theorem start_with_args_adopts_by_name_only (args : list string)
    (self : LabVIEW) (w : world) (before after : list process)
    (proc : process) :
  is_local self = true ->
  procs (here w) = before ++ proc :: after ->
  name proc = "LabVIEW.exe" ->
  (forall q, In q after -> name q <> "LabVIEW.exe") ->
  Process (pid proc) (here w) = Some proc ->
  lower (exe proc) <> lower (executable self) ->
  exists r self' w',
    start_with_args args self w = (r, self', w') /\
    _pid self' = Some (pid proc) /\
    is_running self' w' = false /\
    client self' w' = Raise NotStartedError.
Proof.
  intros Hlocal Htable Hname Hlast Hfirst Hexe.
  unfold start_with_args.
  set (self1 := set_pid self _).
  assert (Hp : _pid self1 = Some (pid proc)).
  { cbn. rewrite Htable. apply adopt_running_last; assumption. }
  change (helpers_host self1 w) with (helpers_host self w).
  change (with_helpers_host self1 w) with (with_helpers_host self w).
  assert (Hh : helpers_host self w = here w)
    by (unfold helpers_host; rewrite Hlocal; reflexivity).
  rewrite Hh.
  assert (Hrun : forall h,
            Process (pid proc) h = Some proc ->
            is_running self1 (with_helpers_host self w h) = false).
  { intros h Hproc. unfold is_running.
    change (helpers_host self1) with (helpers_host self).
    rewrite helpers_host_with, Hp.
    unfold LabVIEWHelpers.process_is_running, LabVIEWHelpers._get_process.
    rewrite Hproc. change (executable self1) with (executable self).
    destruct (String.eqb (lower (exe proc)) (lower (executable self))) eqn:E;
      [apply String.eqb_eq in E; contradiction|reflexivity]. }
  assert (Hclient : forall v, is_running self1 v = false ->
            client self1 v = Raise NotStartedError).
  { intros v Hv. unfold client. rewrite Hv. reflexivity. }
  destruct (here w) as [table pend log] eqn:Hw.
  unfold LabVIEWHelpers.start_process. cbn [pending procs launched].
  rewrite Hp.
  destruct pend as [|child pend].
  - eexists. eexists. eexists. split; [reflexivity|]. split; [exact Hp|].
    assert (Hr : is_running self1
                   (with_helpers_host self w
                      (mkHost table [] (log ++ [executable self :: args])))
                 = false).
    { apply Hrun. rewrite <- Hfirst. apply Process_same_table. reflexivity. }
    auto.
  - eexists. eexists. eexists. split; [reflexivity|]. split; [exact Hp|].
    assert (Hr : is_running self1
                   (with_helpers_host self w
                      (mkHost (table ++ [child]) pend
                         (log ++ [executable self :: args])))
                 = false).
    { apply Hrun. apply (Process_app_found _ table [child] (child :: pend) log).
      exact Hfirst. }
    auto.
Qed.

(** X8.  The readiness wait can end successfully only for a controller
    whose server is configured on, and only on a turn where the tracked
    process is running and the listener accepts; with the server off it can
    only time out. *)
Theorem wait_until_server_loaded_success (self : LabVIEW)
    (timeout_s start_time : Z) (script : list observation) :
  (wait_until_server_loaded self timeout_s start_time script = Some (Ok tt) ->
   start (server_cfg self) = true /\
   exists o, In o script /\ is_running self (seen o) = true /\
             accepts o = true) /\
  (start (server_cfg self) = false ->
   forall r,
     wait_until_server_loaded self timeout_s start_time script = Some r ->
     r = Raise TimeoutError).
Proof.
  unfold wait_until_server_loaded.
  assert (Hok : wait_loop self timeout_s start_time script = Some (Ok tt) ->
                exists o, In o script /\ probe self o = Ok tt).
  { induction script as [|o script IH]; cbn; [discriminate|].
    destruct (probe self o) as [[]|e] eqn:Hp.
    - intros _. exists o. auto.
    - destruct (_ >? _); [discriminate|].
      intros Hw. destruct (IH Hw) as (o' & Hin & Hp'). exists o'. auto. }
  split.
  - intros Hw. destruct (Hok Hw) as (o & Hin & Hp).
    apply probe_ok in Hp as (Hr & Hs & Ha). split; [exact Hs|].
    exists o. auto.
  - intros Hoff [[]|e] Hw.
    + destruct (Hok Hw) as (o & _ & Hp).
      apply probe_ok in Hp as (_ & Hs & _). congruence.
    + apply wait_loop_raises in Hw as [-> _]. reflexivity.
Qed.

Section LifecycleCases.
Import Examples MoreExamples.

Lemma kill_then_client_not_started_witness :
  client fresh (world_of with_labview) = Raise NotStartedError.
Proof.
  apply (kill_then_client_not_started (Some 10) tracking
           (world_of with_labview) tt fresh
           (world_of (mkHost [] [child_proc] []))).
  vm_compute. reflexivity.
Defined.

Lemma start_with_args_then_running_witness :
  exists self' w',
    start_with_args ["Splash Screen.vi"] fresh (world_of idle)
    = (Ok tt, self', w') /\
    _pid self' = Some 5001 /\ is_running self' w' = true.
Proof.
  apply (start_with_args_then_running ["Splash Screen.vi"] fresh
           (world_of idle) child_proc []).
  - intros q [].
  - reflexivity.
  - reflexivity.
  - intros q [].
  - reflexivity.
  - reflexivity.
Defined.

Lemma start_with_args_adopts_by_name_only_witness :
  exists r self' w',
    start_with_args ["Splash Screen.vi"] fresh (world_of with_other_labview)
    = (r, self', w') /\
    _pid self' = Some 777 /\
    is_running self' w' = false /\
    client self' w' = Raise NotStartedError.
Proof.
  apply (start_with_args_adopts_by_name_only ["Splash Screen.vi"] fresh
           (world_of with_other_labview) [] [] other_labview).
  - reflexivity.
  - reflexivity.
  - reflexivity.
  - intros q [].
  - reflexivity.
  - vm_compute. discriminate.
Defined.

Lemma wait_until_server_loaded_success_witness :
  start (server_cfg tracking) = true /\
  exists o, In o [not_yet; up_late] /\
            is_running tracking (seen o) = true /\ accepts o = true.
Proof.
  apply (proj1 (wait_until_server_loaded_success tracking 5 0
                  [not_yet; up_late])).
  reflexivity.
Defined.
End LifecycleCases.

(** * Starting and restarting *)

(** X9.  [start] on a controller whose server is on and whose process is
    already running launches nothing and does not wait, whatever
    [wait_until_open] says: it connects once, and a refused connection is
    raised at once. *)
Theorem start_when_running (wait_until_open : bool) (timeout_s : Z)
    (env : start_env) (self : LabVIEW) (w : world) :
  start (server_cfg self) = true ->
  is_running self w = true ->
  Lifecycle.start wait_until_open timeout_s env self w
  = (Some (if listening_now env then Ok tt else Raise SocketError), self, w).
Proof.
  intros Hs Hr. unfold Lifecycle.start, open_and_close, client.
  rewrite Hs, Hr. reflexivity.
Qed.

(** X10.  [start] on a controller whose server is on and whose process is
    not running calls [start_process] once, with the executable, the
    listener VI, [-pref] and the preferences file, [--], the port and the
    timeout in milliseconds, then the report and error files that are
    configured. *)
Theorem start_launches_listener (wait_until_open : bool) (timeout_s : Z)
    (env : start_env) (self : LabVIEW) (w : world) :
  start (server_cfg self) = true ->
  is_running self w = false ->
  launched (helpers_host self
              (snd (Lifecycle.start wait_until_open timeout_s env self w)))
  = launched (helpers_host self w)
    ++ [[executable self; server_vi_path env; "-pref"; ini_file env; "--";
         "--port"; str (port (server_cfg self));
         "--timeout"; str (tcp_timeout_s (server_cfg self) * 1000)]
        ++ match log_path (server_cfg self) with
           | Some p => ["--reportfile"; p]
           | None => []
           end
        ++ match error_log_path (server_cfg self) with
           | Some p => ["--errorfile"; p]
           | None => []
           end].
Proof.
  intros Hs Hr. unfold Lifecycle.start. rewrite Hs, Hr.
  pose proof (start_with_args_launched
                (Lifecycle.listener_args (server_cfg self)
                   (server_vi_path env) (ini_file env)) self w) as Hl.
  destruct (start_with_args _ self w) as [[[u|e] self'] w'];
    cbn [snd] in Hl; [destruct wait_until_open|]; exact Hl.
Qed.

(** X11.  With the server off, [start] neither looks for processes named
    ["LabVIEW.exe"] nor waits: a running controller is left alone, and
    otherwise the executable is launched with [-pref] and the preferences
    file and the pid of the child is tracked. *)
Theorem start_without_server (wait_until_open : bool) (timeout_s : Z)
    (env : start_env) (self : LabVIEW) (w : world) :
  start (server_cfg self) = false ->
  (is_running self w = true ->
   Lifecycle.start wait_until_open timeout_s env self w
   = (Some (Ok tt), self, w)) /\
  (is_running self w = false ->
   forall child rest,
     pending (helpers_host self w) = child :: rest ->
     exists w',
       Lifecycle.start wait_until_open timeout_s env self w
       = (Some (Ok tt), set_pid self (Some (pid child)), w') /\
       procs (helpers_host self w') = procs (helpers_host self w) ++ [child] /\
       launched (helpers_host self w')
       = launched (helpers_host self w)
         ++ [[executable self; "-pref"; ini_file env]]).
Proof.
  intros Hs. unfold Lifecycle.start. rewrite Hs. split.
  - intros ->. reflexivity.
  - intros -> child rest Hpend.
    unfold LabVIEWHelpers.start_process. rewrite Hpend.
    eexists. split; [reflexivity|].
    rewrite helpers_host_with. auto.
Qed.

(** X13.  [start] from nothing to ready.  With the server on, no process
    named ["LabVIEW.exe"] about and nothing tracked, [start] launches the
    child and waits: if the turns of the wait fail within the timeout until
    one finds the child running and the listener accepting, [start] returns
    with the child tracked. *)
Theorem start_waits_until_ready (timeout_s : Z) (env : start_env)
    (self : LabVIEW) (w : world) (child : process) (rest : list process)
    (early later : list observation) (o : observation) :
  start (server_cfg self) = true ->
  (forall q, In q (procs (here w)) -> name q <> "LabVIEW.exe") ->
  _pid self = None ->
  pending (helpers_host self w) = child :: rest ->
  wait_script env = early ++ o :: later ->
  (forall o', In o' early ->
     clock o' - wait_start_time env <= timeout_s /\
     (is_running (set_pid self (Some (pid child))) (seen o') = false \/
      accepts o' = false)) ->
  is_running (set_pid self (Some (pid child))) (seen o) = true ->
  accepts o = true ->
  exists w',
    Lifecycle.start true timeout_s env self w
    = (Some (Ok tt), set_pid self (Some (pid child)), w') /\
    procs (helpers_host self w') = procs (helpers_host self w) ++ [child].
Proof.
  intros Hs Hno Hpid Hpend Hscript Hearly Hrun Hacc.
  assert (Hr : is_running self w = false)
    by (unfold is_running; rewrite Hpid; reflexivity).
  unfold Lifecycle.start. rewrite Hs, Hr.
  unfold start_with_args.
  set (self1 := set_pid self _).
  assert (Hp : _pid self1 = None).
  { cbn. rewrite (adopt_running_none _ _ Hno). exact Hpid. }
  change (helpers_host self1 w) with (helpers_host self w).
  change (with_helpers_host self1 w) with (with_helpers_host self w).
  unfold LabVIEWHelpers.start_process. rewrite Hpend, Hp.
  change (set_pid self1 (Some (pid child)))
    with (set_pid self (Some (pid child))).
  assert (Hwait : wait_until_server_loaded (set_pid self (Some (pid child)))
                    timeout_s (wait_start_time env) (wait_script env)
                  = Some (Ok tt)).
  { unfold wait_until_server_loaded. rewrite Hscript.
    rewrite wait_loop_retries.
    - cbn [wait_loop].
      assert (Hprobe : probe (set_pid self (Some (pid child))) o = Ok tt)
        by (apply probe_ok; auto).
      rewrite Hprobe. reflexivity.
    - intros o' Hin. destruct (Hearly o' Hin) as [Hle Hfail].
      split; [|exact Hle]. intros Hok. apply probe_ok in Hok as (H1 & _ & H3).
      destruct Hfail; congruence. }
  rewrite Hwait. eexists. split; [reflexivity|].
  rewrite helpers_host_with. reflexivity.
Qed.

(** X14.  [restart].  A controller that is not running is simply started.
    One that is running is killed first, with the same timeout: when the
    local wait for its exit times out, [TimeoutExpired] is raised, nothing
    is started and the pid stays tracked; when the process exits, [start]
    runs on a controller that tracks nothing and a machine without that
    process. *)
Theorem restart_outcomes (wait_until_open : bool) (timeout_s : Z)
    (env : start_env) (self : LabVIEW) (w : world) :
  (is_running self w = false ->
   Lifecycle.restart wait_until_open timeout_s env self w
   = Lifecycle.start wait_until_open timeout_s env self w) /\
  (forall proc,
     LabVIEWHelpers._get_process (_pid self) (executable self)
       (helpers_host self w) = Some proc ->
     alive proc = true ->
     (is_local self = true -> timeout_s < exit_delay proc ->
      Lifecycle.restart wait_until_open timeout_s env self w
      = (Some (Raise TimeoutExpired), self, w)) /\
     (is_local self = false \/ exit_delay proc <= timeout_s ->
      exists w1,
        Lifecycle.restart wait_until_open timeout_s env self w
        = Lifecycle.start wait_until_open timeout_s env (set_pid self None) w1
        /\ Process (pid proc) (helpers_host self w1) = None)).
Proof.
  unfold Lifecycle.restart. split.
  - intros ->. reflexivity.
  - intros proc Hg Halive.
    assert (Hr : is_running self w = true).
    { unfold is_running, LabVIEWHelpers.process_is_running.
      rewrite Hg. exact Halive. }
    rewrite Hr. split.
    + intros Hl Hlate.
      rewrite (kill_matched_times_out self w proc timeout_s Hg Hl Hlate).
      reflexivity.
    + intros Hcase.
      destruct (kill_matched_exits (Some timeout_s) self w proc Hg)
        as (w1 & Hk & Hgone).
      { destruct Hcase as [Hc | Hc]; [left; exact Hc|].
        right; right. exists timeout_s. auto. }
      rewrite Hk. exists w1. auto.
Qed.

Section StartCases.
Import Examples StartExamples.

Lemma start_when_running_witness :
  Lifecycle.start true 5 env_down tracking (world_of with_labview)
  = (Some (Raise SocketError), tracking, world_of with_labview).
Proof.
  apply (start_when_running true 5 env_down tracking (world_of with_labview));
    reflexivity.
Defined.

Lemma start_launches_listener_witness :
  launched (here (snd (Lifecycle.start false 5 env_ready logged
                         (world_of idle))))
  = [[lv_exe; "C:\lv_listener\Splash Screen.vi"; "-pref"; "C:\Temp\tmp1.ini";
      "--"; "--port"; "2552"; "--timeout"; "60000";
      "--reportfile"; "C:\Temp\report.log"]].
Proof.
  apply (start_launches_listener false 5 env_ready logged (world_of idle));
    reflexivity.
Defined.

Lemma start_without_server_witness :
  exists w',
    Lifecycle.start true 5 env_ready plain (world_of MoreExamples.with_other_labview)
    = (Some (Ok tt), set_pid plain (Some 5001), w') /\
    procs (here w') = procs MoreExamples.with_other_labview ++ [child_proc] /\
    launched (here w') = [[lv_exe; "-pref"; "C:\Temp\tmp1.ini"]].
Proof.
  destruct (start_without_server true 5 env_ready plain
              (world_of MoreExamples.with_other_labview) eq_refl) as [_ Hlaunch].
  apply (Hlaunch eq_refl child_proc []). reflexivity.
Defined.

Lemma start_waits_until_ready_witness :
  exists w',
    Lifecycle.start true 5 env_ready fresh (world_of idle)
    = (Some (Ok tt), set_pid fresh (Some 5001), w') /\
    procs (here w') = [child_proc].
Proof.
  apply (start_waits_until_ready 5 env_ready fresh (world_of idle)
           child_proc [] [booting] [] ready); try reflexivity.
  - intros q [].
  - intros o' [<- | []]. split; [cbn; lia|]. right. reflexivity.
Defined.

Lemma restart_outcomes_witness :
  Lifecycle.restart true 5 env_ready tracking (world_of with_labview)
  = (Some (Raise TimeoutExpired), tracking, world_of with_labview).
Proof.
  destruct (restart_outcomes true 5 env_ready tracking
              (world_of with_labview)) as [_ Hrun].
  destruct (Hrun labview_proc eq_refl eq_refl) as [Hlate _].
  apply Hlate; [reflexivity | cbn; lia].
Defined.
End StartCases.

(** * The options *)

Lemma dict_get_set_same (k : string) (v : value) (d : dict) :
  dict_get k (dict_set k v d) = Some v.
Proof.
  induction d as [|[k' w] d IH]; cbn.
  - rewrite String.eqb_refl. reflexivity.
  - destruct (String.eqb k k') eqn:E; cbn; rewrite E; [reflexivity|exact IH].
Qed.

Lemma dict_get_set_other (k k' : string) (v : value) (d : dict) :
  k <> k' -> dict_get k (dict_set k' v d) = dict_get k d.
Proof.
  intros Hne. induction d as [|[k0 w] d IH]; cbn.
  - destruct (String.eqb k k') eqn:E; [|reflexivity].
    apply String.eqb_eq in E. contradiction.
  - destruct (String.eqb k' k0) eqn:E; cbn.
    + apply String.eqb_eq in E. subst k0.
      destruct (String.eqb k k') eqn:E'; [|reflexivity].
      apply String.eqb_eq in E'. contradiction.
    + rewrite IH. reflexivity.
Qed.

Lemma dict_set_same_value (k : string) (v : value) (d : dict) :
  dict_get k d = Some v -> dict_set k v d = d.
Proof.
  induction d as [|[k' w] d IH]; cbn; [discriminate|].
  destruct (String.eqb k k') eqn:E.
  - intros [= ->]. reflexivity.
  - intros H. rewrite (IH H). reflexivity.
Qed.

Lemma set_all_get_out (settings : list (string * value)) (d : dict)
    (k : string) :
  ~ In k (map fst settings) ->
  dict_get k (set_all settings d) = dict_get k d.
Proof.
  unfold set_all. revert d.
  induction settings as [|[k' v] l IH]; intros d Hout; cbn; [reflexivity|].
  rewrite IH by (intros Hin; apply Hout; right; exact Hin).
  apply dict_get_set_other. intros ->. apply Hout. left. reflexivity.
Qed.

Lemma set_all_get_in (settings : list (string * value)) (d : dict)
    (k : string) (v : value) :
  NoDup (map fst settings) -> In (k, v) settings ->
  dict_get k (set_all settings d) = Some v.
Proof.
  unfold set_all. revert d.
  induction settings as [|[k' v'] l IH]; intros d Hnd Hin; [destruct Hin|].
  inversion Hnd as [|? ? Hk Hl]; subst. cbn.
  destruct Hin as [[= -> ->] | Hin].
  - rewrite (set_all_get_out l _ k Hk). apply dict_get_set_same.
  - apply IH; assumption.
Qed.

Lemma set_all_fixed (settings : list (string * value)) (d : dict) :
  (forall k v, In (k, v) settings -> dict_get k d = Some v) ->
  set_all settings d = d.
Proof.
  unfold set_all. induction settings as [|[k v] l IH]; intros Hall; cbn;
    [reflexivity|].
  rewrite (dict_set_same_value k v d) by (apply Hall; left; reflexivity).
  apply IH. intros k' v' Hin. apply Hall. right. exact Hin.
Qed.

Lemma dialog_settings_keys : NoDup (map fst dialog_settings).
Proof. apply BsonFacts.keys_unique_NoDup. reflexivity. Qed.

(** X15.  [disable_dialogs] gives each of its seventeen options its value,
    leaves every other option of the object as it was, and changes nothing
    when called a second time. *)
Theorem disable_dialogs_sets_and_keeps (ini : dict) :
  (forall k v, In (k, v) dialog_settings ->
     dict_get k (disable_dialogs ini) = Some v) /\
  (forall k, ~ In k (map fst dialog_settings) ->
     dict_get k (disable_dialogs ini) = dict_get k ini) /\
  disable_dialogs (disable_dialogs ini) = disable_dialogs ini.
Proof.
  unfold disable_dialogs. split; [|split].
  - intros k v. apply set_all_get_in. exact dialog_settings_keys.
  - intros k. apply set_all_get_out.
  - apply set_all_fixed. intros k v.
    apply set_all_get_in. exact dialog_settings_keys.
Qed.

(** ** Splitting, joining and stripping *)

Lemma split_not_nil (sep : ascii) (s : string) : split sep s <> [].
Proof.
  destruct s as [|c r]; cbn; [discriminate|].
  destruct (Ascii.eqb c sep); [discriminate|].
  destruct (split sep r); discriminate.
Qed.

(** A string splits into itself alone exactly when the separator is not in
    it; [split sep e = [e]] is how the statements below say so. *)
Lemma split_single_cons (sep c : ascii) (r : string) :
  split sep (String c r) = [String c r] ->
  Ascii.eqb c sep = false /\ split sep r = [r].
Proof.
  cbn. destruct (Ascii.eqb c sep); [discriminate|].
  destruct (split sep r) as [|h t] eqn:E; [destruct (split_not_nil _ _ E)|].
  intros [= -> ->]. auto.
Qed.

Lemma split_single_inv (sep : ascii) (s h : string) :
  split sep s = [h] -> h = s.
Proof.
  revert h. induction s as [|c r IH]; intros h; cbn.
  - intros [= <-]. reflexivity.
  - destruct (Ascii.eqb c sep); [intros [= _ H]; destruct (split_not_nil _ _ H)|].
    destruct (split sep r) as [|h' t] eqn:E; [destruct (split_not_nil _ _ E)|].
    intros [= <- ->]. rewrite (IH h' eq_refl). reflexivity.
Qed.

Lemma split_app_sep (sep : ascii) (x rest : string) :
  split sep x = [x] ->
  split sep (x ++ String sep rest)%string = x :: split sep rest.
Proof.
  induction x as [|c x IH]; intros Hx.
  - cbn. rewrite Ascii.eqb_refl. reflexivity.
  - apply split_single_cons in Hx as [Hc Hx].
    cbn. rewrite Hc, (IH Hx). reflexivity.
Qed.

Lemma split_concat (sep : ascii) (l : list string) :
  l <> [] ->
  (forall e, In e l -> split sep e = [e]) ->
  split sep (String.concat (String sep EmptyString) l) = l.
Proof.
  induction l as [|x l IH]; intros Hne Hall; [contradiction|].
  destruct l as [|y l].
  - cbn. apply Hall. left. reflexivity.
  - change (String.concat (String sep EmptyString) (x :: y :: l))
      with (x ++ String sep (String.concat (String sep EmptyString) (y :: l)))%string.
    rewrite split_app_sep by (apply Hall; left; reflexivity).
    rewrite IH; [reflexivity|discriminate|].
    intros e Hin. apply Hall. right. exact Hin.
Qed.

Lemma split_entries_single (sep : ascii) (s e : string) :
  In e (split sep s) -> split sep e = [e].
Proof.
  revert e. induction s as [|c r IH]; intros e; cbn.
  - intros [<- | []]. reflexivity.
  - destruct (Ascii.eqb c sep) eqn:Hc.
    + intros [<- | Hin]; [reflexivity|apply IH; exact Hin].
    + destruct (split sep r) as [|h t] eqn:E;
        [destruct (split_not_nil _ _ E)|].
      intros [<- | Hin].
      * cbn. rewrite Hc, (IH h (or_introl eq_refl)). reflexivity.
      * apply IH. right. exact Hin.
Qed.

Lemma lstrip_length (s : string) :
  (String.length (lstrip_quotes s) <= String.length s)%nat.
Proof.
  induction s as [|c r IH]; cbn; [lia|].
  destruct (is_quote c); cbn; lia.
Qed.

Lemma rstrip_length (s : string) :
  (String.length (rstrip_quotes s) <= String.length s)%nat.
Proof.
  induction s as [|c r IH]; cbn; [lia|].
  destruct (rstrip_quotes r); [destruct (is_quote c)|]; cbn in *; lia.
Qed.

Lemma lstrip_fixed_cons (c : ascii) (r : string) :
  lstrip_quotes (String c r) = String c r <-> is_quote c = false.
Proof.
  cbn. destruct (is_quote c); split; try reflexivity; try discriminate.
  intros H. pose proof (lstrip_length r) as Hl. rewrite H in Hl. cbn in Hl. lia.
Qed.

Lemma rstrip_fixed_cons (c : ascii) (r : string) :
  rstrip_quotes (String c r) = String c r -> rstrip_quotes r = r.
Proof.
  cbn. destruct (rstrip_quotes r) as [|c' r'] eqn:E.
  - destruct (is_quote c); [discriminate|]. intros [= <-]. reflexivity.
  - intros [= <-]. reflexivity.
Qed.

Lemma strip_fixed (s : string) :
  strip_quotes s = s -> lstrip_quotes s = s /\ rstrip_quotes s = s.
Proof.
  unfold strip_quotes. intros H.
  assert (Hl : lstrip_quotes s = s).
  { destruct s as [|c r]; [reflexivity|].
    apply lstrip_fixed_cons. destruct (is_quote c) eqn:Hq; [|reflexivity].
    exfalso. cbn in H. rewrite Hq in H.
    pose proof (rstrip_length (lstrip_quotes r)) as H1.
    pose proof (lstrip_length r) as H2. rewrite H in H1. cbn in H1. lia. }
  rewrite Hl in H. auto.
Qed.

Lemma lstrip_lstrip (s : string) :
  lstrip_quotes (lstrip_quotes s) = lstrip_quotes s.
Proof.
  induction s as [|c r IH]; cbn; [reflexivity|].
  destruct (is_quote c) eqn:Hq; [exact IH|]. cbn. rewrite Hq. reflexivity.
Qed.

Lemma rstrip_cons_fixed (c : ascii) (s : string) :
  rstrip_quotes s = s -> s <> EmptyString ->
  rstrip_quotes (String c s) = String c s.
Proof.
  intros H Hne. cbn. rewrite H. destruct s; [contradiction|reflexivity].
Qed.

Lemma rstrip_rstrip (s : string) :
  rstrip_quotes (rstrip_quotes s) = rstrip_quotes s.
Proof.
  induction s as [|c r IH]; cbn; [reflexivity|].
  destruct (rstrip_quotes r) as [|c' r'] eqn:E.
  - destruct (is_quote c) eqn:Hq; cbn; [reflexivity|]. rewrite Hq. reflexivity.
  - apply rstrip_cons_fixed; [exact IH|discriminate].
Qed.

Lemma lstrip_rstrip (s : string) :
  lstrip_quotes s = s -> lstrip_quotes (rstrip_quotes s) = rstrip_quotes s.
Proof.
  destruct s as [|c r]; [reflexivity|].
  intros H. apply lstrip_fixed_cons in H. cbn.
  destruct (rstrip_quotes r); [rewrite H|]; cbn; rewrite H; reflexivity.
Qed.

Lemma strip_is_stripped (s : string) :
  lstrip_quotes (strip_quotes s) = strip_quotes s /\
  rstrip_quotes (strip_quotes s) = strip_quotes s.
Proof.
  unfold strip_quotes. split.
  - apply lstrip_rstrip, lstrip_lstrip.
  - apply rstrip_rstrip.
Qed.

Lemma rstrip_app_quote (s : string) (q : ascii) :
  is_quote q = true ->
  rstrip_quotes (s ++ String q EmptyString) = rstrip_quotes s.
Proof.
  intros Hq. induction s as [|c r IH]; cbn.
  - rewrite Hq. reflexivity.
  - rewrite IH. reflexivity.
Qed.

Lemma lstrip_app (x y : string) :
  lstrip_quotes x = x -> x <> EmptyString ->
  lstrip_quotes (x ++ y) = (x ++ y)%string.
Proof.
  destruct x as [|c r]; [contradiction|]. intros H _.
  apply lstrip_fixed_cons in H. cbn. rewrite H. reflexivity.
Qed.

Lemma rstrip_app (x y : string) :
  rstrip_quotes y = y -> y <> EmptyString ->
  rstrip_quotes (x ++ y) = (x ++ y)%string.
Proof.
  intros H Hne. induction x as [|c r IH]; [exact H|].
  cbn [append]. apply rstrip_cons_fixed; [exact IH|].
  destruct r; [exact Hne|discriminate].
Qed.

Lemma lstrip_cons_quote (q : ascii) (s : string) :
  is_quote q = true -> lstrip_quotes (String q s) = lstrip_quotes s.
Proof.
  intros Hq. cbn. rewrite Hq. reflexivity.
Qed.

(** Stripping what [quoted] wrote gives the text back, when the text has no
    quote at either end. *)
Lemma strip_quoted (s : string) :
  lstrip_quotes s = s -> rstrip_quotes s = s ->
  strip_quotes (quoted s) = s.
Proof.
  intros Hl Hr. unfold strip_quotes, quoted.
  assert (Hq : is_quote dquote = true) by reflexivity.
  rewrite (lstrip_cons_quote dquote _ Hq).
  destruct s as [|c r].
  - cbn [append]. rewrite (lstrip_cons_quote dquote _ Hq). reflexivity.
  - rewrite lstrip_app by (exact Hl || discriminate).
    rewrite rstrip_app_quote by exact Hq. exact Hr.
Qed.

Lemma semicolon_not_quote : is_quote ";" = false.
Proof. reflexivity. Qed.

Lemma lstrip_concat (l : list string) :
  lstrip_quotes (hd EmptyString l) = hd EmptyString l ->
  lstrip_quotes (String.concat ";" l) = String.concat ";" l.
Proof.
  destruct l as [|x [|y l]]; cbn [hd String.concat]; auto.
  intros Hx. destruct x as [|c r].
  - cbn. reflexivity.
  - apply lstrip_app; [exact Hx|discriminate].
Qed.

Lemma rstrip_concat (l : list string) :
  rstrip_quotes (last l EmptyString) = last l EmptyString ->
  rstrip_quotes (String.concat ";" l) = String.concat ";" l.
Proof.
  induction l as [|x l IH]; [auto|].
  destruct l as [|y l]; [auto|].
  intros Hlast.
  change (String.concat ";" (x :: y :: l))
    with (x ++ String ";" (String.concat ";" (y :: l)))%string.
  apply rstrip_app; [|discriminate].
  specialize (IH Hlast).
  destruct (String.concat ";" (y :: l)) as [|c r] eqn:E.
  - reflexivity.
  - apply rstrip_cons_fixed; [exact IH|discriminate].
Qed.

Lemma split_hd_stripped (s : string) :
  lstrip_quotes s = s ->
  lstrip_quotes (hd EmptyString (split ";" s))
  = hd EmptyString (split ";" s).
Proof.
  destruct s as [|c r]; [reflexivity|].
  intros H. apply lstrip_fixed_cons in H. cbn [split].
  destruct (Ascii.eqb c ";"); [reflexivity|].
  destruct (split ";" r) as [|h t]; cbn; rewrite H; reflexivity.
Qed.

Lemma split_last_stripped (s : string) :
  rstrip_quotes s = s ->
  rstrip_quotes (last (split ";" s) EmptyString)
  = last (split ";" s) EmptyString.
Proof.
  induction s as [|c r IH]; [reflexivity|].
  intros H. pose proof (rstrip_fixed_cons c r H) as Hr.
  specialize (IH Hr). cbn [split].
  destruct (Ascii.eqb c ";").
  - destruct (split ";" r) as [|h t] eqn:E;
      [destruct (split_not_nil _ _ E)|]. exact IH.
  - destruct (split ";" r) as [|h t] eqn:E;
      [destruct (split_not_nil _ _ E)|].
    destruct t as [|h' t].
    + apply split_single_inv in E. subst h. exact H.
    + exact IH.
Qed.

(** ** The search path *)

Lemma split_stripped_well_split (s : string) :
  well_split (split ";" (strip_quotes s)).
Proof.
  destruct (strip_is_stripped s) as [Hl Hr].
  repeat split.
  - apply split_not_nil.
  - intros e. apply split_entries_single.
  - apply split_hd_stripped. exact Hl.
  - apply split_last_stripped. exact Hr.
Qed.

Lemma search_entries_well_split (ini : dict) (entries : list string) :
  search_entries ini = Ok entries -> well_split entries.
Proof.
  unfold search_entries.
  destruct (dict_get "viSearchPath" ini) as [[| | |s| |]|];
    try discriminate; intros H;
    match type of H with
    | Ok ?x = Ok _ => assert (Heq : entries = x) by congruence
    end;
    rewrite Heq; apply split_stripped_well_split.
Qed.

Lemma with_path_has_path (path : string) (append : bool)
    (entries : list string) :
  existsb (String.eqb path) (with_path path append entries) = true.
Proof.
  unfold with_path.
  destruct (existsb (String.eqb path) entries) eqn:E; [exact E|].
  destruct append.
  - rewrite existsb_app. cbn. rewrite String.eqb_refl.
    rewrite orb_true_r. reflexivity.
  - cbn. rewrite String.eqb_refl. reflexivity.
Qed.

Lemma with_path_well_split (path : string) (append : bool)
    (entries : list string) :
  split ";" path = [path] -> strip_quotes path = path ->
  well_split entries -> well_split (with_path path append entries).
Proof.
  intros Hsplit Hstrip (Hne & Hall & Hhd & Hlast).
  apply strip_fixed in Hstrip as [Hl Hr].
  unfold with_path.
  destruct (existsb (String.eqb path) entries); [repeat split; assumption|].
  destruct entries as [|x entries]; [contradiction|].
  destruct append.
  - repeat split.
    + discriminate.
    + intros e Hin. apply in_app_or in Hin as [Hin | [<- | []]];
        [apply Hall; exact Hin|exact Hsplit].
    + exact Hhd.
    + rewrite last_last. exact Hr.
  - repeat split.
    + discriminate.
    + intros e [<- | Hin]; [exact Hsplit|apply Hall; exact Hin].
    + exact Hl.
    + exact Hlast.
Qed.

(** The entries written by [join_entries] are the entries read back, for
    three entries or more. *)
Lemma split_strip_join (entries : list string) :
  well_split entries -> (2 < List.length entries)%nat ->
  split ";" (strip_quotes (join_entries entries)) = entries.
Proof.
  intros (Hne & Hall & Hhd & Hlast) Hlen. unfold join_entries.
  apply Nat.ltb_lt in Hlen. rewrite Hlen.
  rewrite strip_quoted.
  - apply split_concat; assumption.
  - apply lstrip_concat. exact Hhd.
  - apply rstrip_concat. exact Hlast.
Qed.

(** X16.  [add_to_search_path] and back.  For a path with no semicolon and
    no quote at either end: when the search path has three entries or more
    once the path is in, the options then hold exactly these entries (the
    old ones with the path first, or last with [append], or unchanged when
    it was there already); every other option is kept; and adding the path
    again changes nothing. *)
Theorem add_to_search_path_round_trip (path : string) (append : bool)
    (ini : dict) (entries : list string) :
  search_entries ini = Ok entries ->
  split ";" path = [path] ->
  strip_quotes path = path ->
  (2 < List.length (with_path path append entries))%nat ->
  exists ini',
    add_to_search_path path append ini = Ok ini' /\
    search_entries ini' = Ok (with_path path append entries) /\
    (forall k, k <> "viSearchPath" -> dict_get k ini' = dict_get k ini) /\
    (forall append', add_to_search_path path append' ini' = Ok ini').
Proof.
  intros He Hsplit Hstrip Hlen.
  pose proof (with_path_well_split path append entries Hsplit Hstrip
                (search_entries_well_split ini entries He)) as Hws.
  pose proof (split_strip_join _ Hws Hlen) as Hback.
  set (entries' := with_path path append entries) in *.
  set (ini' := dict_set "viSearchPath" (VStr (join_entries entries')) ini).
  assert (Hread : search_entries ini' = Ok entries').
  { unfold search_entries, ini'. rewrite dict_get_set_same, Hback.
    reflexivity. }
  exists ini'. split; [|split; [|split]].
  - unfold add_to_search_path, res_bind. rewrite He. reflexivity.
  - exact Hread.
  - intros k Hk. apply dict_get_set_other. exact Hk.
  - intros append'. unfold add_to_search_path, res_bind. rewrite Hread.
    assert (Hin : with_path path append' entries' = entries').
    { unfold with_path at 1.
      unfold entries'. rewrite with_path_has_path. reflexivity. }
    rewrite Hin. f_equal. apply dict_set_same_value.
    apply dict_get_set_same.
Qed.

(** X17.  With two entries or fewer once the path is in, the entries are
    joined with nothing between them: a search path of one entry and a new
    path are written as one string, the path glued in front of the entry, or
    behind it with [append]. *)
Theorem add_to_search_path_glues_short (path entry : string) (ini : dict) :
  search_entries ini = Ok [entry] ->
  entry <> path ->
  add_to_search_path path false ini
  = Ok (dict_set "viSearchPath" (VStr (quoted (path ++ entry))) ini) /\
  add_to_search_path path true ini
  = Ok (dict_set "viSearchPath" (VStr (quoted (entry ++ path))) ini).
Proof.
  intros He Hne. unfold add_to_search_path, res_bind. rewrite He.
  unfold with_path. cbn [existsb].
  assert (E : String.eqb path entry = false).
  { apply String.eqb_neq. intros ->. contradiction. }
  rewrite E. cbn [orb]. unfold join_entries. split; reflexivity.
Qed.

Section OptionsCases.

Lemma disable_dialogs_sets_and_keeps_witness :
  dict_get "SuppressRTConnectionDialogs" (disable_dialogs _LVOptions.__init__)
  = Some (VBool true) /\
  dict_get "paletteLazyLoad" (disable_dialogs _LVOptions.__init__)
  = Some (VBool true).
Proof.
  destruct (disable_dialogs_sets_and_keeps _LVOptions.__init__)
    as (Hset & Hkeep & _).
  split.
  - apply Hset. cbn. tauto.
  - rewrite Hkeep; [reflexivity|].
    cbn. intros H. repeat (destruct H as [H | H]; [discriminate H|]).
    exact H.
Defined.

(** A path added to the defaults. *)
Lemma add_to_search_path_round_trip_witness :
  exists ini',
    add_to_search_path "C:\mine" false _LVOptions.__init__ = Ok ini' /\
    search_entries ini'
    = Ok ["C:\mine"; "<topvi>:\*"; "<foundvi>:\"; "<vilib>:\*";
          "<userlib>:\*"; "<instrlib>:\*"] /\
    (forall k, k <> "viSearchPath" ->
       dict_get k ini' = dict_get k _LVOptions.__init__) /\
    (forall append', add_to_search_path "C:\mine" append' ini' = Ok ini').
Proof.
  apply (add_to_search_path_round_trip "C:\mine" false _LVOptions.__init__
           ["<topvi>:\*"; "<foundvi>:\"; "<vilib>:\*"; "<userlib>:\*";
            "<instrlib>:\*"]).
  - reflexivity.
  - reflexivity.
  - reflexivity.
  - cbn. lia.
Defined.

Lemma add_to_search_path_glues_short_witness :
  add_to_search_path "b" false [("viSearchPath", VStr "a")]
  = Ok [("viSearchPath", VStr (quoted "ba"))].
Proof.
  apply (add_to_search_path_glues_short "b" "a" [("viSearchPath", VStr "a")]).
  - reflexivity.
  - discriminate.
Defined.
End OptionsCases.

(** * The installation *)

Lemma find_first {A : Type} (f : A -> bool) (l : list A) (x : A) :
  find f l = Some x ->
  f x = true /\
  exists before after,
    l = before ++ x :: after /\ forall y, In y before -> f y = false.
Proof.
  induction l as [|a l IH]; cbn; [discriminate|].
  destruct (f a) eqn:E.
  - intros [= <-]. split; [exact E|]. exists [], l. split; [reflexivity|].
    intros y [].
  - intros H. destruct (IH H) as (Hx & before & after & -> & Hb).
    split; [exact Hx|]. exists (a :: before), after. split; [reflexivity|].
    intros y [<- | Hin]; [exact E|apply Hb; exact Hin].
Qed.

(** X18.  The path [path] finds for a version.  It is one of the paths the
    registry lists, has the version in it (case apart), lies outside
    [program files (x86)] when the bitness is ['x64'] and inside it when the
    bitness is ['x86'] on a 64-bit system; no listed path before it would
    have done; and it is kept: asking again gives the same path whatever the
    registry says then. *)
Theorem path_finds_first_match (env : install_env) (self self' : installation)
    (version found : string) :
  _path self = None ->
  _version self = Some version ->
  Installation.path env self = (Ok (Some found), self') ->
  In found (labview_paths env) /\
  contains (lower version) (lower found) = true /\
  (_bitness self = Some "x64" ->
   contains "program files (x86)" (lower found) = false) /\
  (_bitness self = Some "x86" -> os_64bit env = true ->
   contains "program files (x86)" (lower found) = true) /\
  (exists before after,
     labview_paths env = before ++ found :: after /\
     forall c, In c before ->
       Installation.taken (os_64bit env) self version c = false) /\
  (forall env', Installation.path env' self' = (Ok (Some found), self')).
Proof.
  intros Hp Hv. unfold Installation.path. rewrite Hp, Hv.
  destruct (Installation.bitness_is self "x64" && negb (os_64bit env));
    [discriminate|].
  destruct (find _ _) as [c|] eqn:Hfind; [|discriminate].
  intros H. assert (c = found /\ self' = mkInstallation (_version self)
                                            (_bitness self) (Some c))
    as [-> ->] by (split; congruence). clear H.
  apply find_first in Hfind as (Htaken & before & after & Hlist & Hbefore).
  unfold Installation.taken, Installation.skipped, Installation.bitness_is
    in Htaken.
  apply andb_true_iff in Htaken as [Hskip Hver].
  apply negb_true_iff, orb_false_iff in Hskip as [H86 H64].
  split; [rewrite Hlist; apply in_or_app; right; left; reflexivity|].
  split; [exact Hver|]. split; [|split; [|split]].
  - intros Hb. rewrite Hb in H64. cbn in H64. exact H64.
  - intros Hb Hos. rewrite Hb, Hos in H86. cbn in H86.
    apply negb_false_iff in H86. exact H86.
  - exists before, after. auto.
  - intros env'. reflexivity.
Qed.

(** Asking for the 64-bit LabVIEW of a version on a 32-bit system raises
    [ValueError], before any path is looked at, and sets nothing. *)
Lemma path_x64_on_32bit (env : install_env) (self : installation)
    (version : string) :
  _path self = None ->
  _version self = Some version ->
  _bitness self = Some "x64" ->
  os_64bit env = false ->
  Installation.path env self = (Raise ValueError, self).
Proof.
  intros Hp Hv Hb Hos. unfold Installation.path, Installation.bitness_is.
  rewrite Hp, Hv, Hb, Hos. reflexivity.
Qed.

Lemma find_same {A : Type} (f g : A -> bool) (l : list A) :
  (forall x, f x = g x) -> find f l = find g l.
Proof.
  intros H. induction l as [|a l IH]; cbn; [reflexivity|].
  rewrite H, IH. reflexivity.
Qed.

Lemma taken_without_bitness (os : bool) (version : option string)
    (b : string) (v c : string) :
  b <> "x64" -> (b <> "x86" \/ os = false) ->
  Installation.taken os (mkInstallation version (Some b) None) v c
  = Installation.taken os (mkInstallation version None None) v c.
Proof.
  intros H64 H86.
  unfold Installation.taken, Installation.skipped, Installation.bitness_is.
  cbn [_bitness].
  apply String.eqb_neq in H64. rewrite H64.
  destruct H86 as [H86 | ->].
  - apply String.eqb_neq in H86. rewrite H86.
    rewrite andb_false_r. reflexivity.
  - reflexivity.
Qed.

(** X19.  When the bitness is ignored.  [__init__] compares the bitness
    case apart, [path] compares it as written: a bitness that [__init__]
    accepts but that is not written exactly ['x86'] or ['x64'] selects the
    path that no bitness at all selects.  So does ['x86'] on a 32-bit
    system; and with no version the active installation is taken whatever
    the bitness is, ['x64'] on a 32-bit system included. *)
Theorem path_ignores_bitness (env : install_env) (version : option string)
    (b : string) (self : installation) :
  Installation.__init__ version (Some b) = Ok self ->
  (b <> "x64" /\ (b <> "x86" \/ os_64bit env = false)) \/ version = None ->
  fst (Installation.path env self)
  = fst (Installation.path env (mkInstallation version None None)).
Proof.
  unfold Installation.__init__.
  destruct (negb _); [discriminate|]. intros H.
  assert (self = mkInstallation version (Some b) None) as -> by congruence.
  clear H. intros Hcase. unfold Installation.path. cbn [_path _version].
  destruct version as [v|].
  - destruct Hcase as [[H64 H86] | Hnone]; [|discriminate].
    unfold Installation.bitness_is at 1 2. cbn [_bitness].
    pose proof H64 as H64'. apply String.eqb_neq in H64'. rewrite H64'.
    cbn [andb fst].
    f_equal. apply find_same. intros c.
    apply taken_without_bitness; assumption.
  - destruct (active_labview_path env); reflexivity.
Qed.

Section InstallCases.
Import InstallExamples.

Lemma path_finds_first_match_witness :
  In lv2015_64 (labview_paths env64) /\
  contains "2015" (lower lv2015_64) = true /\
  contains "program files (x86)" (lower lv2015_64) = false.
Proof.
  destruct (path_finds_first_match env64
              (mkInstallation (Some "2015") (Some "x64") None)
              (mkInstallation (Some "2015") (Some "x64") (Some lv2015_64))
              "2015" lv2015_64 eq_refl eq_refl eq_refl)
    as (Hin & Hver & H64 & _).
  split; [exact Hin|]. split; [exact Hver|]. apply H64. reflexivity.
Defined.

(** ['X64'] passes [__init__] and then selects the 32-bit LabVIEW. *)
Lemma path_ignores_bitness_witness :
  fst (Installation.path env64
         (mkInstallation (Some "2015") (Some "X64") None))
  = Ok (Some lv2015_32).
Proof.
  rewrite (path_ignores_bitness env64 (Some "2015") "X64"
             (mkInstallation (Some "2015") (Some "X64") None)).
  - reflexivity.
  - reflexivity.
  - left. split; [discriminate|]. left. discriminate.
Defined.
End InstallCases.

(** * What one read consumes *)

Section ClientReads.
Context {bson : BsonLibrary}.

(** X20.  Whatever [_recv_dict] returns or raises, it has taken a prefix of
    the stream and sent nothing: either the four bytes of the size or fewer,
    or, when these declare a size, at most that many bytes.  The bytes of a
    following frame are never touched, also when the decoding fails. *)
Theorem recv_dict_never_overreads (s s' : socket) (r : res dict) :
  _recv_dict s = (r, s') ->
  exists consumed,
    consumed ++ List.concat (inbox s') = List.concat (inbox s) /\
    outbox s' = outbox s /\
    ((List.length consumed <= 4)%nat \/
     exists size,
       unpack_l (firstn 4 consumed) = Ok size /\
       Z.of_nat (List.length consumed) <= size).
Proof.
  intros Hr. pose proof (recv_dict_outbox s s' r Hr) as Hout.
  revert Hr. unfold _recv_dict, bind, lift, ret, raise.
  pose proof (recv_spec 4 s) as (Hcat & Hlen & _ & _).
  destruct (recv 4 s) as [hdr s1]. cbn [fst snd] in *.
  destruct (unpack_l hdr) as [size|e] eqn:Hu.
  - pose proof (unpack_l_length _ _ Hu) as Hfour.
    pose proof (recv_loop_extends (Z.to_nat size) size hdr s1)
      as (more & Hp & Hm).
    pose proof (recv_loop_bounded (Z.to_nat size) size hdr s1) as Hb.
    assert (Hstay : size < 4 ->
              recv_loop (Z.to_nat size) size hdr s1 = (hdr, s1)).
    { intros Hsmall. destruct (Z.to_nat size); cbn;
        (destruct (_ <? _) eqn:E; [apply Z.ltb_lt in E; lia|reflexivity]). }
    destruct (recv_loop _ _ _ _) as [packet s2]. cbn [fst snd] in *.
    intros Hres.
    assert (Hs2 : s' = s2).
    { destruct (from_bson (bson_decode_all packet)) as [[|d docs]|e];
        injection Hres as _ <-; reflexivity. }
    subst s'. exists packet. split; [|split; [exact Hout|]].
    + rewrite Hp, <- app_assoc, Hm. exact Hcat.
    + destruct (Z_lt_le_dec size 4) as [Hsmall | Hbig].
      * left. specialize (Hstay Hsmall). injection Hstay as -> _. lia.
      * right. exists size. split; [|apply Hb; lia].
        rewrite Hp, (firstn_exact hdr more 4 Hfour). exact Hu.
  - intros [= _ <-]. exists hdr. split; [exact Hcat|]. split; [exact Hout|].
    left. exact Hlen.
Qed.
End ClientReads.

Section ClientReadsCases.
Import Examples.

(** A truncated frame: the read stops at the end of the stream. *)
Lemma recv_dict_never_overreads_witness :
  exists consumed,
    consumed ++ List.concat (inbox (snd (_recv_dict cut_short)))
    = List.concat (inbox cut_short) /\
    outbox (snd (_recv_dict cut_short)) = outbox cut_short /\
    ((List.length consumed <= 4)%nat \/
     exists size,
       unpack_l (firstn 4 consumed) = Ok size /\
       Z.of_nat (List.length consumed) <= size).
Proof.
  apply (recv_dict_never_overreads cut_short (snd (_recv_dict cut_short))
           (fst (_recv_dict cut_short))).
  destruct (_recv_dict cut_short). reflexivity.
Defined.
End ClientReadsCases.

(** * The machine that is scanned *)

(** X22.  [start_with_args] lists the processes of the machine the
    controller itself runs on, also for a controller of another host: the
    pid it tracks afterwards does not depend on the processes of that host.
    A LabVIEW running there is not adopted, and one running here is, though
    [is_running] will look for its pid there. *)
Theorem start_with_args_scans_own_machine (args : list string)
    (self : LabVIEW) (w w' : world) :
  is_local self = false ->
  here w = here w' ->
  pending (there w) = pending (there w') ->
  _pid (snd (fst (start_with_args args self w)))
  = _pid (snd (fst (start_with_args args self w'))).
Proof.
  intros Hl Hhere Hpend. unfold start_with_args.
  rewrite Hhere.
  set (self1 := set_pid self _).
  change (helpers_host self1) with (helpers_host self).
  unfold helpers_host. rewrite Hl.
  unfold LabVIEWHelpers.start_process. rewrite Hpend.
  destruct (pending (there w')); destruct (_pid self1); reflexivity.
Qed.

Section ScanCases.
Import Examples RemoteExamples.

Lemma start_with_args_scans_own_machine_witness :
  _pid (snd (fst (start_with_args ["Splash Screen.vi"] remote target_idle)))
  = _pid (snd (fst (start_with_args ["Splash Screen.vi"] remote target_busy))).
Proof.
  apply (start_with_args_scans_own_machine ["Splash Screen.vi"] remote
           target_idle target_busy); reflexivity.
Defined.
End ScanCases.
